(** * Clean-up tracker backend (backend/server.js): a shallow embedding

    The Express handlers of [backend/server.js] are embedded as functions
    over an explicit store state.  JavaScript values are an inductive
    type; the two accumulator objects of the statistics handler are finite
    maps of own properties read through [Object.prototype], as a JavaScript
    object literal is; the Firestore client, the clock and the rendering
    of numbers are the environment.

    Left out: the start-up configuration (credentials, CORS origin, port),
    and [console.error], which only writes a log line. *)

From Stdlib Require Import PrimFloat.
From stdpp Require Import gmap strings list fin_maps.

Set Warnings "-register-all".
Open Scope string_scope.

(** ** JavaScript values *)

(** The values a parsed JSON body or a stored document holds, and
    [undefined] for what is absent. *)
Inductive jsval : Type :=
  | JUndefined
  | JNull
  | JBool (b : bool)
  | JNum (x : float)
  | JStr (s : string)
  | JArr (items : list jsval)
  | JObj (props : gmap string jsval).

(** A plain object: its own properties. *)
Abbreviation jsobject := (gmap string jsval).

(** ToBoolean: [undefined], [null], [false], [0], [-0], [NaN] and the
    empty string are falsy, everything else is truthy. *)
Definition truthy (v : jsval) : bool :=
  match v with
  | JUndefined | JNull => false
  | JBool b => b
  | JNum x => negb (PrimFloat.eqb x 0 || negb (PrimFloat.eqb x x))
  | JStr s => negb (String.eqb s "")
  | JArr _ | JObj _ => true
  end.

(** [a || b] *)
Definition or_else (a b : jsval) : jsval := if truthy a then a else b.

Definition nullish (v : jsval) : bool :=
  match v with JUndefined | JNull => true | _ => false end.

(** [o.k] on a plain object, for a name [k] that [Object.prototype] does
    not define (all the names the handlers read: type, volume, location,
    user, uid, email, title, description, date, submitterId). *)
Definition prop (o : jsobject) (k : string) : jsval := default JUndefined (o !! k).

(** [v.k] on a value that is not nullish, for the same names: no built-in
    prototype (of strings, numbers, booleans, arrays) defines them, so only
    an object's own property answers. *)
Definition getField (v : jsval) (k : string) : jsval :=
  match v with
  | JObj props => prop props k
  | _ => JUndefined
  end.

(** [v?.k] *)
Definition optField (v : jsval) (k : string) : jsval :=
  if nullish v then JUndefined else getField v k.

(** ** Completions: a value, or a thrown error *)

(** A thrown [Error]; the handlers read only its [message]. *)
Record JsError : Type := { message : string }.

Inductive completion (A : Type) : Type :=
  | Normal (a : A)
  | Throw (err : JsError).
Arguments Normal {A} a.
Arguments Throw {A} err.

#[global] Instance completion_ret : MRet completion := @Normal.
#[global] Instance completion_bind : MBind completion := λ A B f c,
  match c with
  | Normal a => f a
  | Throw err => Throw err
  end.

#[global] Instance completion_fmap : FMap completion := λ A B f c,
  match c with
  | Normal a => Normal (f a)
  | Throw err => Throw err
  end.

Definition TypeError (msg : string) : JsError := {| message := msg |}.

(** The error of a conversion to a primitive that finds no callable
    [toString] or [valueOf] answering with one. *)
Definition not_primitive : JsError := TypeError "Cannot convert object to primitive value".

(** ** Property keys *)

Section Join.
(** How an element converts to a string. *)
Variable text : jsval → completion string.

(** Array.prototype.join with the separator ",": [undefined] and [null]
    elements give the empty text. *)
Fixpoint join (items : list jsval) : completion string :=
  match items with
  | [] => Normal ""
  | i :: rest =>
      s ← (if nullish i then Normal "" else text i);
      match rest with
      | [] => Normal s
      | _ => r ← join rest; Normal (s ++ "," ++ r)
      end
  end.
End Join.

Section Engine.
(** Number::toString of ECMAScript, the decimal text of a double.  No
    property below depends on how a number is rendered. *)
Variable Number_toString : float → string.

(** ToString of a value.  An array answers through [join].  A plain
    object answers through [Object.prototype.toString], unless it has an
    own [toString] property: that one is data, not callable, the inherited
    [valueOf] returns the object itself, and OrdinaryToPrimitive throws. *)
Fixpoint ToString (v : jsval) : completion string :=
  match v with
  | JUndefined => Normal "undefined"
  | JNull => Normal "null"
  | JBool true => Normal "true"
  | JBool false => Normal "false"
  | JNum x => Normal (Number_toString x)
  | JStr s => Normal s
  | JArr items => join ToString items
  | JObj props =>
      match props !! "toString" with
      | Some _ => Throw not_primitive
      | None => Normal "[object Object]"
      end
  end.

(** ToPropertyKey, applied by [o[v]]: the values here hold no symbol. *)
Definition ToPropertyKey (v : jsval) : completion string := ToString v.
End Engine.

(** ** The accumulator objects of the statistics handler *)

(** What an own property of [totalsByType] or [totalsByUser] holds: the
    result of [(o[k] || 0) + 1] is a number, or a string when [o[k]] read
    something that is not a number.  Counts are doubles in the source,
    exact on the integers below 2^53; they are natural numbers here. *)
Inductive tally : Type :=
  | Count (n : N)
  | Text (s : string).

(** The function-valued properties every object literal inherits from
    [Object.prototype], each with the name of the function it holds. *)
Definition Object_prototype_functions : list (string * string) :=
  [ ("constructor", "Object");
    ("hasOwnProperty", "hasOwnProperty");
    ("isPrototypeOf", "isPrototypeOf");
    ("propertyIsEnumerable", "propertyIsEnumerable");
    ("toLocaleString", "toLocaleString");
    ("toString", "toString");
    ("valueOf", "valueOf");
    ("__defineGetter__", "__defineGetter__");
    ("__defineSetter__", "__defineSetter__");
    ("__lookupGetter__", "__lookupGetter__");
    ("__lookupSetter__", "__lookupSetter__") ].

(** The name of the function an object literal inherits under [k]. *)
Definition inherited_function (k : string) : option string :=
  (list_to_map Object_prototype_functions : gmap string string) !! k.

(** Function.prototype.toString of a built-in function, as V8 prints it. *)
Definition native_source (name : string) : string :=
  "function " ++ name ++ "() { [native code] }".

(** The value of [(o[k] || 0) + 1] for an object [o] created by [{}] with
    own properties [own].  [__proto__] is an accessor of [Object.prototype]:
    it reads the prototype object, which is truthy and adds as
    "[object Object]".  An own property shadows an inherited one; an
    inherited function is truthy and adds as its source text. *)
Definition plus_one (own : gmap string tally) (k : string) : tally :=
  if String.eqb k "__proto__" then Text "[object Object]1"
  else
    match own !! k with
    | Some (Count n) => Count (n + 1)
    | Some (Text s) => if String.eqb s "" then Count 1 else Text (s ++ "1")
    | None =>
        match inherited_function k with
        | Some name => Text (native_source name ++ "1")
        | None => Count 1
        end
    end.

(** [o[k] = v] for a number or string [v]: the setter of [__proto__]
    ignores a value that is neither an object nor [null]; any other key
    becomes (or updates) an own property. *)
Definition assign (own : gmap string tally) (k : string) (v : tally) : gmap string tally :=
  if String.eqb k "__proto__" then own else <[k := v]> own.

(** [o[k] = (o[k] || 0) + 1] *)
Definition bump (own : gmap string tally) (k : string) : gmap string tally :=
  assign own k (plus_one own k).

(** The body of the 200 response of GET /api/stats. *)
Record StatsSummary : Type := {
  totalEntries : N;
  totalsByType : gmap string tally;
  totalsByUser : gmap string tally;
}.

(** A stored document: the plain object [d.data()] returns. *)
Abbreviation document := (gmap string jsval).

Section Aggregation.
Variable Number_toString : float → string.

(** [e.type || "Unknown"] and [e.submitterId || "unknown"], as the
    property keys the two assignments use. *)
Definition type_key (e : document) : completion string :=
  ToPropertyKey Number_toString (or_else (prop e "type") (JStr "Unknown")).

Definition user_key (e : document) : completion string :=
  ToPropertyKey Number_toString (or_else (prop e "submitterId") (JStr "unknown")).

(** The callback of [entries.forEach], on the three accumulators. *)
Definition tally_entry (acc : StatsSummary) (e : document) : completion StatsSummary :=
  let totalEntries := (totalEntries acc + 1)%N in
  t ← type_key e;
  let totalsByType := bump (totalsByType acc) t in
  uid ← user_key e;
  let totalsByUser := bump (totalsByUser acc) uid in
  Normal {| totalEntries := totalEntries;
            totalsByType := totalsByType;
            totalsByUser := totalsByUser |}.

(** [entries.forEach(...)]: left to right; a throw ends the loop. *)
Fixpoint forEach (entries : list document) (acc : StatsSummary) : completion StatsSummary :=
  match entries with
  | [] => Normal acc
  | e :: rest => acc' ← tally_entry acc e; forEach rest acc'
  end.

Definition zero_stats : StatsSummary :=
  {| totalEntries := 0; totalsByType := ∅; totalsByUser := ∅ |}.

(** The aggregation of GET /api/stats over the scanned entries. *)
Definition computeStats (entries : list document) : completion StatsSummary :=
  forEach entries zero_stats.
End Aggregation.

(** ** The document store and the environment of a request *)

(** The two collections under artifacts/<project>/public/data. *)
Inductive collection : Type := wasteEntriesCol | eventsCol.

(** Modelled from the spec: the hosted document store, which is not code
    of this repository.  A collection maps the identifiers the store
    assigned to the documents appended under them; documents are never
    updated or deleted. *)
Record Firestore : Type := {
  wasteEntries : gmap string document;
  events : gmap string document;
}.

Definition docs (c : collection) (fs : Firestore) : gmap string document :=
  match c with
  | wasteEntriesCol => wasteEntries fs
  | eventsCol => events fs
  end.

Definition put (c : collection) (id : string) (data : document) (fs : Firestore) : Firestore :=
  match c with
  | wasteEntriesCol => {| wasteEntries := <[id := data]> (wasteEntries fs); events := events fs |}
  | eventsCol => {| wasteEntries := wasteEntries fs; events := <[id := data]> (events fs) |}
  end.

(** What the outside answers during one request: the clock read by
    [new Date().toISOString()], the identifier the store client draws for
    an [add], and for the successive store calls of the request whether
    each one rejects ([Some msg]: with an [Error] of that message). *)
Record Env : Type := {
  now : string;
  autoId : string;
  faults : list (option string);
}.

(** The state a handler threads: the store, and how many store calls the
    request has made so far. *)
Record Run : Type := {
  store : Firestore;
  calls : nat;
}.

(** An [async] computation of a handler. *)
Definition Eff (A : Type) : Type := Env → Run → completion A * Run.

Definition eff_ret {A} (a : A) : Eff A := λ _ r, (Normal a, r).

Definition eff_bind {A B} (m : Eff A) (f : A → Eff B) : Eff B := λ env r,
  match m env r with
  | (Normal a, r') => f a env r'
  | (Throw err, r') => (Throw err, r')
  end.

Notation "x ←' m ; k" := (eff_bind m (λ x, k))
  (at level 20, m at level 100, k at level 200, only parsing, right associativity).

Definition lift {A} (c : completion A) : Eff A := λ _ r, (c, r).

Definition clock : Eff string := λ env r, (Normal (now env), r).

(** One round trip to the store: counted, and rejected when the
    environment says so. *)
Definition store_call : Eff unit := λ env r,
  let r' := {| store := store r; calls := S (calls r) |} in
  match faults env !! calls r with
  | Some (Some msg) => (Throw {| message := msg |}, r')
  | _ => (Normal (), r')
  end.

(** Modelled from the spec: [collection.add(data)].  The store allocates
    the identifier and appends the document; as [add] is a create, an
    identifier already present is refused, never overwritten. *)
Definition add (c : collection) (data : document) : Eff string :=
  _ ←' store_call;
  λ env r,
    match docs c (store r) !! autoId env with
    | Some _ => (Throw {| message := "6 ALREADY_EXISTS: Document already exists" |}, r)
    | None => (Normal (autoId env),
               {| store := put c (autoId env) data (store r); calls := calls r |})
    end.

(** Modelled from the spec: [collection.get()], all current documents with
    their identifiers, in store-defined order. *)
Definition get (c : collection) : Eff (list (string * document)) :=
  _ ←' store_call;
  λ env r, (Normal (map_to_list (docs c (store r))), r).

(** ** Responses *)

(** The JSON bodies the handlers send. *)
Inductive json_body : Type :=
  | Created (msg : string) (id : string)  (* { message, id } *)
  | Listing (entries : list jsobject)     (* [ {id, ...data}, ... ] *)
  | Summary (stats : StatsSummary)        (* { totalEntries, totalsByType, totalsByUser } *)
  | Failure (error : string)              (* { error } *)
  | Health.                               (* { status: "ok" } *)

Record response : Type := {
  status : N;
  body : json_body;
}.

(** [try { ... } catch (err) { res.status(500).json({ error: err.message }) }] *)
Definition try_catch (block : Eff response) : Env → Run → response * Run := λ env r,
  match block env r with
  | (Normal res, r') => (res, r')
  | (Throw err, r') => ({| status := 500; body := Failure (message err) |}, r')
  end.

(** [const { first, ... } = req.body]: a nullish body throws. *)
Definition destructure (req_body : jsval) (first : string) : completion unit :=
  match req_body with
  | JUndefined =>
      Throw (TypeError ("Cannot destructure property '" ++ first ++ "' of 'req.body' as it is undefined."))
  | JNull =>
      Throw (TypeError ("Cannot destructure property '" ++ first ++ "' of 'req.body' as it is null."))
  | _ => Normal ()
  end.

Definition Unauthorized : response := {| status := 401; body := Failure "Unauthorized" |}.

(** ** The handlers *)

(** The document POST /api/waste hands to [add]. *)
Definition wasteEntry (type volume location user : jsval) (createdAt : string) : document :=
  {[ "type" := type;
     "volume" := volume;
     "location" := location;
     "submitterId" := getField user "uid";
     "submitterEmail" := or_else (getField user "email") JNull;
     "createdAt" := JStr createdAt ]}.

(** The document POST /api/events hands to [add]. *)
Definition event (title description location date user : jsval) (createdAt : string) : document :=
  {[ "title" := title;
     "description" := description;
     "location" := location;
     "date" := date;
     "creatorId" := getField user "uid";
     "creatorEmail" := or_else (getField user "email") JNull;
     "createdAt" := JStr createdAt ]}.

(** POST /api/waste *)
Definition post_api_waste (req_body : jsval) : Env → Run → response * Run :=
  try_catch (
    _ ←' lift (destructure req_body "type");
    let type := getField req_body "type" in
    let volume := getField req_body "volume" in
    let location := getField req_body "location" in
    let user := getField req_body "user" in
    if negb (truthy (optField user "uid")) then eff_ret Unauthorized
    else
      createdAt ←' clock;
      id ←' add wasteEntriesCol (wasteEntry type volume location user createdAt);
      eff_ret {| status := 200; body := Created "Waste entry added" id |}).

(** [{ id: d.id, ...d.data() }]: the spread comes second, so a stored
    field named id would win over the document's identifier. *)
Definition with_id (d : string * document) : jsobject :=
  d.2 ∪ {[ "id" := JStr d.1 ]}.

(** GET /api/waste *)
Definition get_api_waste : Env → Run → response * Run :=
  try_catch (
    snapshot ←' get wasteEntriesCol;
    let entries := with_id <$> snapshot in
    eff_ret {| status := 200; body := Listing entries |}).

(** POST /api/events *)
Definition post_api_events (req_body : jsval) : Env → Run → response * Run :=
  try_catch (
    _ ←' lift (destructure req_body "title");
    let title := getField req_body "title" in
    let description := getField req_body "description" in
    let location := getField req_body "location" in
    let date := getField req_body "date" in
    let user := getField req_body "user" in
    if negb (truthy (optField user "uid")) then eff_ret Unauthorized
    else
      createdAt ←' clock;
      id ←' add eventsCol (event title description location date user createdAt);
      eff_ret {| status := 200; body := Created "Event created" id |}).

(** GET /api/events *)
Definition get_api_events : Env → Run → response * Run :=
  try_catch (
    snapshot ←' get eventsCol;
    let events := with_id <$> snapshot in
    eff_ret {| status := 200; body := Listing events |}).

(** The routes of the server. *)
Inductive request : Type :=
  | POST_waste (req_body : jsval)
  | GET_waste
  | POST_events (req_body : jsval)
  | GET_events
  | GET_stats
  | GET_root.

Section Stats.
Variable Number_toString : float → string.

(** GET /api/stats *)
Definition get_api_stats : Env → Run → response * Run :=
  try_catch (
    snapshot ←' get wasteEntriesCol;
    let entries := snd <$> snapshot in
    stats ←' lift (computeStats Number_toString entries);
    eff_ret {| status := 200; body := Summary stats |}).

(** GET / *)
Definition get_root : Env → Run → response * Run :=
  λ _ r, ({| status := 200; body := Health |}, r).

(** ** The server: routing, runs *)

Definition route (rq : request) : Env → Run → response * Run :=
  match rq with
  | POST_waste b => post_api_waste b
  | GET_waste => get_api_waste
  | POST_events b => post_api_events b
  | GET_events => get_api_events
  | GET_stats => get_api_stats
  | GET_root => get_root
  end.

(** One request served on a store: the response, the store afterwards,
    and the number of store calls the handler made. *)
Definition serve (rq : request) (env : Env) (fs : Firestore) : response * Firestore * nat :=
  let '(res, r) := route rq env {| store := fs; calls := 0 |} in
  (res, store r, calls r).

(** Requests served one after the other, each in its own environment. *)
Fixpoint run (script : list (request * Env)) (fs : Firestore) : list response * Firestore :=
  match script with
  | [] => ([], fs)
  | (rq, env) :: rest =>
      let '(res, fs', _) := serve rq env fs in
      let '(ress, fs'') := run rest fs' in
      (res :: ress, fs'')
  end.
End Stats.

Definition empty_store : Firestore := {| wasteEntries := ∅; events := ∅ |}.

(** ** The specification's fold, in its own words *)

Module Spec.
(** A StatsSummary as the data model states it: counts by key. *)
Record summary : Type := {
  totalEntries : N;
  totalsByType : gmap string N;
  totalsByUser : gmap string N;
}.

Definition initial : summary :=
  {| totalEntries := 0; totalsByType := ∅; totalsByUser := ∅ |}.

(** "increment totalsByType[t]" *)
Definition increment (m : gmap string N) (k : string) : gmap string N :=
  <[k := (default 0 (m !! k) + 1)%N]> m.

(** "let t = entry.type if present else the literal string" *)
Definition if_present (e : document) (field fallback : string) : jsval :=
  match e !! field with
  | Some v => v
  | None => JStr fallback
  end.

(** The amended reading: the field if it is truthy, else the literal. *)
Definition if_truthy (e : document) (field fallback : string) : jsval :=
  if truthy (prop e field) then prop e field else JStr fallback.

Section Fold.
Variable Number_toString : float → string.
(** How [t] and [u] are chosen from an entry. *)
Variable choose : document → string → string → jsval.

(** "For each entry: increment totalEntries; ... increment
    totalsByType[t]; ... increment totalsByUser[u]." *)
Definition step (acc : summary) (e : document) : completion summary :=
  t ← ToPropertyKey Number_toString (choose e "type" "Unknown");
  u ← ToPropertyKey Number_toString (choose e "submitterId" "unknown");
  Normal {| totalEntries := totalEntries acc + 1;
            totalsByType := increment (totalsByType acc) t;
            totalsByUser := increment (totalsByUser acc) u |}.

Fixpoint fold_from (acc : summary) (entries : list document) : completion summary :=
  match entries with
  | [] => Normal acc
  | e :: rest => acc' ← step acc e; fold_from acc' rest
  end.

(** "Initialize totalEntries = 0, empty totalsByType, empty
    totalsByUser", then fold. *)
Definition computeStats (entries : list document) : completion summary :=
  fold_from initial entries.
End Fold.

(** sum(m.values()) *)
Definition sum_values (m : gmap string N) : N :=
  map_fold (λ _ n acc, (acc + n)%N) 0%N m.
End Spec.

(** A summary of counts, as the response object that holds them. *)
Definition as_response (s : Spec.summary) : StatsSummary :=
  {| totalEntries := Spec.totalEntries s;
     totalsByType := Count <$> Spec.totalsByType s;
     totalsByUser := Count <$> Spec.totalsByUser s |}.

(** sum(o.values()) for an accumulator object: defined when every own
    property holds a number. *)
Definition sum_values (own : gmap string tally) : option N :=
  map_fold (λ _ v acc, match v, acc with
                       | Count n, Some a => Some (a + n)%N
                       | _, _ => None
                       end) (Some 0%N) own.

(** The keys on which an object literal does not behave as a dictionary:
    the names it inherits from [Object.prototype]. *)
Definition inherited (k : string) : bool :=
  String.eqb k "__proto__" || bool_decide (is_Some (inherited_function k)).

(** ** Vocabulary of the properties *)

(** The 500 response of a [catch]. *)
Definition server_error (msg : string) : response :=
  {| status := 500; body := Failure msg |}.

(** The message with which the [n]-th store call of the request is rejected. *)
Definition fault_message (env : Env) (n : nat) : string :=
  default "" (mjoin (faults env !! n)).

(** The [n]-th store call of the request is not rejected. *)
Definition accepts (env : Env) (n : nat) : bool :=
  match faults env !! n with
  | Some (Some _) => false
  | _ => true
  end.

(** The submitter identity of a body, as the guard reads it: [user?.uid]. *)
Definition uid_of (req_body : jsval) : jsval := optField (getField req_body "user") "uid".

(** The requests whose handler gets as far as its store call. *)
Definition reaches_store (rq : request) : bool :=
  match rq with
  | POST_waste b | POST_events b => negb (nullish b) && truthy (uid_of b)
  | GET_waste | GET_events | GET_stats => true
  | GET_root => false
  end.

(** The full listing of a collection, as the list endpoints return it. *)
Definition listing (c : collection) (fs : Firestore) : list jsobject :=
  with_id <$> map_to_list (docs c fs).

(** The entries GET /api/stats scans. *)
Definition scanned (fs : Firestore) : list document :=
  snd <$> map_to_list (wasteEntries fs).

(** The response of GET /api/stats as a function of the scanned entries. *)
Definition stats_response (Number_toString : float → string) (entries : list document) : response :=
  match computeStats Number_toString entries with
  | Normal stats => {| status := 200; body := Summary stats |}
  | Throw err => {| status := 500; body := Failure (message err) |}
  end.

(** The identifier a response hands out for a created waste entry. *)
Definition created_id (rq : request) (res : response) : option string :=
  match rq, body res with
  | POST_waste _, Created _ id => if N.eqb (status res) 200 then Some id else None
  | _, _ => None
  end.

(** The identifiers issued for waste entries along a run. *)
Definition issued (script : list (request * Env)) (ress : list response) : list string :=
  omap (λ p, created_id p.1.1 p.2) (zip script ress).


(** How many of the entries convert to the key [k]. *)
Definition count_key (key : document → completion string) (k : string)
    (entries : list document) : N :=
  N.of_nat (length (List.filter (λ e, match key e with
                                      | Normal k' => String.eqb k' k
                                      | Throw _ => false
                                      end) entries)).

(** The own property that holds a count of [n]: none before the first
    increment. *)
Definition counted (n : N) : option tally :=
  if N.eqb n 0 then None else Some (Count n).

(** An entry whose two keys, when they convert, are not names inherited
    from [Object.prototype]. *)
Definition ordinary_keys (Number_toString : float → string) (e : document) : Prop :=
  ∀ k, type_key Number_toString e = Normal k ∨ user_key Number_toString e = Normal k →
       inherited k = false.

(** Induction on values, through the elements of an array. *)
Fixpoint jsval_array_ind (P : jsval → Prop)
    (Hundefined : P JUndefined) (Hnull : P JNull)
    (Hbool : ∀ b, P (JBool b)) (Hnum : ∀ x, P (JNum x)) (Hstr : ∀ s, P (JStr s))
    (Harr : ∀ items, Forall P items → P (JArr items))
    (Hobj : ∀ props, P (JObj props)) (v : jsval) : P v :=
  match v with
  | JUndefined => Hundefined
  | JNull => Hnull
  | JBool b => Hbool b
  | JNum x => Hnum x
  | JStr s => Hstr s
  | JArr items =>
      Harr items
        ((fix all (l : list jsval) : Forall P l :=
            match l with
            | [] => @List.Forall_nil jsval P
            | i :: rest =>
                @List.Forall_cons jsval P i rest
                  (jsval_array_ind P Hundefined Hnull Hbool Hnum Hstr Harr Hobj i)
                  (all rest)
            end) items)
  | JObj props => Hobj props
  end.

(** ** Vocabulary of the further properties *)

(** The string an accumulator holds under an inherited function name after
    [n] increments: the source text of the function, then one "1" for each
    [+ 1]. *)
Fixpoint text_after (name : string) (n : nat) : string :=
  match n with
  | 0 => native_source name
  | S n' => text_after name n' ++ "1"
  end.

(** The own property under an inherited function name after [n]
    increments: none before the first. *)
Definition texted (name : string) (n : nat) : option tally :=
  match n with
  | 0 => None
  | S _ => Some (Text (text_after name n))
  end.

(** An entry both of whose keys convert. *)
Definition converts (Number_toString : float → string) (e : document) : bool :=
  match type_key Number_toString e, user_key Number_toString e with
  | Normal _, Normal _ => true
  | _, _ => false
  end.

(** A value that is neither an array nor an object. *)
Definition scalar (v : jsval) : bool :=
  match v with
  | JArr _ | JObj _ => false
  | _ => true
  end.

(** An entry whose type and submitterId are scalars, or absent. *)
Definition scalar_fields (e : document) : bool :=
  scalar (prop e "type") && scalar (prop e "submitterId").


(** ** Vocabulary of the write endpoints *)

(** What a field the request body leaves out reads as. *)
Definition is_undefined (v : jsval) : bool :=
  match v with
  | JUndefined => true
  | _ => false
  end.

(** A body that leaves out one of type, volume and location. *)
Definition leaves_out (req_body : jsval) : bool :=
  is_undefined (getField req_body "type") || is_undefined (getField req_body "volume")
  || is_undefined (getField req_body "location").

(** A document one of whose fields is undefined. *)
Definition holds_undefined (data : document) : bool :=
  existsb (λ p, is_undefined p.2) (map_to_list data).

(** The store client is not code of this repository.  [getFirestore()]
    (line 34) is called without settings, and the client it then returns
    rejects an [add] whose document holds undefined under a field.
    [default_client env data]: the environment answers the first store
    call of the request as that client answers [add(data)]. *)
Definition default_client (env : Env) (data : document) : bool :=
  implb (holds_undefined data) (negb (accepts env 0)).

(** The run answered its request POST /api/waste with the body [req_body],
    served in [env], with 200 and the identifier [id]. *)
Definition created_in (script : list (request * Env)) (ress : list response)
    (req_body : jsval) (env : Env) (id : string) : Prop :=
  ∃ i, script !! i = Some (POST_waste req_body, env) ∧
       ress !! i = Some {| status := 200; body := Created "Waste entry added" id |}.

(** ** Sample inputs *)

(** A rendering of numbers for the sample requests below, none of which
    holds a number. *)
Definition no_numbers : float → string := λ _, "".

(** A request environment in which the store answers every call and
    draws [id] for an [add]. *)
Definition calm (id : string) : Env :=
  {| now := "2024-05-01T08:00:00.000Z"; autoId := id; faults := [] |}.

(** A request environment in which the first store call is rejected. *)
Definition stormy (id msg : string) : Env :=
  {| now := "2024-05-01T08:00:00.000Z"; autoId := id; faults := [Some msg] |}.

(** A body of POST /api/waste with text fields and a user identity. *)
Definition waste_body (type uid : string) : jsval :=
  JObj {[ "type" := JStr type; "volume" := JStr "5 bags"; "location" := JStr "Zapote";
          "user" := JObj {[ "uid" := JStr uid ]} ]}.

(** A stored waste entry with the two fields the statistics read. *)
Definition stored (type uid : string) : document :=
  {[ "type" := JStr type; "submitterId" := JStr uid ]}.

(** * Properties *)

(** ** The accumulator objects *)

Lemma inherited_proto k : inherited k = false → k ≠ "__proto__".
Proof.
  unfold inherited. intros H ->. discriminate.
Qed.

Lemma inherited_method k : inherited k = false → inherited_function k = None.
Proof.
  unfold inherited. intros [_ H]%orb_false_iff.
  apply bool_decide_eq_false in H. by apply eq_None_not_Some.
Qed.

Lemma assign_lookup_ne own k k' v : k ≠ k' → assign own k v !! k' = own !! k'.
Proof.
  intros Hne. unfold assign. destruct (String.eqb k "__proto__"); [done |].
  by rewrite lookup_insert_ne.
Qed.

Lemma bump_lookup_ne own k k' : k ≠ k' → bump own k !! k' = own !! k'.
Proof. apply assign_lookup_ne. Qed.

Lemma plus_one_bump_ne own k k' : k ≠ k' → plus_one (bump own k) k' = plus_one own k'.
Proof.
  intros Hne. unfold plus_one. by rewrite bump_lookup_ne.
Qed.

(** Two increments commute: each key's property depends only on how often
    that key was incremented. *)
Lemma bump_comm own k1 k2 : bump (bump own k1) k2 = bump (bump own k2) k1.
Proof.
  destruct (decide (k1 = k2)) as [-> | Hne]; [done |].
  unfold bump at 1 3.
  rewrite !plus_one_bump_ne by done.
  unfold bump, assign.
  destruct (String.eqb k1 "__proto__"), (String.eqb k2 "__proto__"); try done.
  by apply insert_insert_ne.
Qed.

(** On a key that is not inherited, the object is a dictionary of counts. *)
Lemma bump_counts (c : gmap string N) k :
  inherited k = false → bump (Count <$> c) k = Count <$> Spec.increment c k.
Proof.
  intros Hk. unfold bump, assign, plus_one, Spec.increment.
  pose proof (inherited_method _ Hk) as Hm.
  apply inherited_proto, String.eqb_neq in Hk. rewrite Hk.
  rewrite lookup_fmap, fmap_insert, Hm.
  by destruct (c !! k) as [n |].
Qed.


(** ** Property keys *)

Section Keys.
Variable Number_toString : float → string.

(** Whatever value fails to convert, the error thrown is the same. *)
Lemma ToString_throws v err :
  ToString Number_toString v = Throw err → err = not_primitive.
Proof.
  revert err. induction v as [| | b | x | s | items IH | props] using jsval_array_ind;
    intros err; simpl; try discriminate.
  - by destruct b.
  - induction IH as [| i rest Hi _ IHrest]; [discriminate |].
    simpl. destruct (nullish i); simpl.
    + destruct rest; [discriminate |].
      destruct (join _ (_ :: _)) eqn:E; simpl; [discriminate |].
      intros [= <-]. by apply IHrest.
    + destruct (ToString Number_toString i) eqn:Ei; simpl.
      * destruct rest; [discriminate |].
        destruct (join _ (_ :: _)) eqn:E; simpl; [discriminate |].
        intros [= <-]. by apply IHrest.
      * intros [= <-]. by apply Hi.
  - destruct (props !! "toString"); [| discriminate]. by intros [= <-].
Qed.

Lemma type_key_throws e err : type_key Number_toString e = Throw err → err = not_primitive.
Proof. apply ToString_throws. Qed.

Lemma user_key_throws e err : user_key Number_toString e = Throw err → err = not_primitive.
Proof. apply ToString_throws. Qed.
End Keys.

(** ** The aggregation fold *)

Section Fold.
(** The rendering of numbers, [Number::toString]. *)
Variable ts : float → string.

Lemma tally_entry_throws acc e err :
  tally_entry ts acc e = Throw err → err = not_primitive ∧ ∀ acc', tally_entry ts acc' e = Throw err.
Proof.
  unfold tally_entry.
  destruct (type_key ts e) as [t | err1] eqn:Ht; simpl.
  - destruct (user_key ts e) as [u | err2] eqn:Hu; simpl; [discriminate |].
    intros [= <-]. split; [by eapply user_key_throws | done].
  - intros [= <-]. split; [by eapply type_key_throws | done].
Qed.

(** The callback commutes with itself: counting [e1] then [e2] is
    counting [e2] then [e1], also when one of them throws. *)
Lemma tally_entry_comm acc e1 e2 :
  (tally_entry ts acc e1 ≫= λ a, tally_entry ts a e2) =
  (tally_entry ts acc e2 ≫= λ a, tally_entry ts a e1).
Proof.
  destruct (tally_entry ts acc e1) as [a1 | err1] eqn:H1;
    destruct (tally_entry ts acc e2) as [a2 | err2] eqn:H2; simpl.
  - revert H1 H2. unfold tally_entry.
    destruct (type_key ts e1) as [t1 |]; simpl; [| discriminate].
    destruct (user_key ts e1) as [u1 |]; simpl; [| discriminate].
    destruct (type_key ts e2) as [t2 |]; simpl; [| discriminate].
    destruct (user_key ts e2) as [u2 |]; simpl; [| discriminate].
    intros [= <-] [= <-]. simpl.
    by rewrite (bump_comm _ t1 t2), (bump_comm _ u1 u2).
  - apply tally_entry_throws in H2 as [_ H2]. by rewrite H2.
  - apply tally_entry_throws in H1 as [_ H1]. by rewrite H1.
  - apply tally_entry_throws in H1 as [-> _].
    apply tally_entry_throws in H2 as [-> _]. done.
Qed.

(** The scan order does not matter. *)
Lemma forEach_Permutation l1 l2 :
  l1 ≡ₚ l2 → ∀ acc, forEach ts l1 acc = forEach ts l2 acc.
Proof.
  induction 1 as [| e l1 l2 _ IH | e1 e2 l | l1 l2 l3 _ IH1 _ IH2]; intros acc.
  - done.
  - simpl. destruct (tally_entry ts acc e); simpl; [apply IH | done].
  - simpl. pose proof (tally_entry_comm acc e2 e1) as Hc.
    destruct (tally_entry ts acc e2) as [a2 |] eqn:H2;
      destruct (tally_entry ts acc e1) as [a1 |] eqn:H1; simpl in *.
    + destruct (tally_entry ts a2 e1), (tally_entry ts a1 e2); simpl; congruence.
    + destruct (tally_entry ts a2 e1); simpl; congruence.
    + destruct (tally_entry ts a1 e2); simpl; congruence.
    + congruence.
  - by rewrite IH1.
Qed.

Lemma totalEntries_forEach l acc s :
  forEach ts l acc = Normal s → totalEntries s = (totalEntries acc + N.of_nat (length l))%N.
Proof.
  revert acc. induction l as [| e l IH]; intros acc; simpl.
  - intros [= <-]. lia.
  - destruct (tally_entry ts acc e) as [a |] eqn:Ha; simpl; [| discriminate].
    intros Hs. apply IH in Hs. rewrite Hs.
    unfold tally_entry in Ha.
    destruct (type_key ts e); simpl in Ha; [| discriminate].
    destruct (user_key ts e); simpl in Ha; [| discriminate].
    injection Ha as <-. simpl. lia.
Qed.

Lemma forEach_counts docs (acc : Spec.summary) :
  Forall (ordinary_keys ts) docs →
  forEach ts docs (as_response acc) = as_response <$> Spec.fold_from ts Spec.if_truthy acc docs.
Proof.
  intros Hdocs. revert acc.
  induction Hdocs as [| e docs He _ IH]; intros acc; [done |].
  simpl. unfold tally_entry, Spec.step.
  change (ToPropertyKey ts (Spec.if_truthy e "type" "Unknown")) with (type_key ts e).
  change (ToPropertyKey ts (Spec.if_truthy e "submitterId" "unknown")) with (user_key ts e).
  destruct (type_key ts e) as [t |] eqn:Ht; simpl; [| done].
  destruct (user_key ts e) as [u |] eqn:Hu; simpl; [| done].
  rewrite !bump_counts by (apply He; auto).
  apply (IH {| Spec.totalEntries := Spec.totalEntries acc + 1;
               Spec.totalsByType := Spec.increment (Spec.totalsByType acc) t;
               Spec.totalsByUser := Spec.increment (Spec.totalsByUser acc) u |}).
Qed.


Lemma bump_counted own k k' c :
  inherited k = false → own !! k = counted c →
  bump own k' !! k = counted (if String.eqb k' k then c + 1 else c).
Proof.
  intros Hk Hown. destruct (String.eqb_spec k' k) as [-> | Hne].
  - pose proof (inherited_method _ Hk) as Hm.
    unfold bump, assign, plus_one.
    apply inherited_proto, String.eqb_neq in Hk. rewrite Hk, lookup_insert_eq, Hown.
    unfold counted. destruct (N.eqb_spec c 0) as [-> | Hc]; simpl.
    + by rewrite Hm.
    + destruct (N.eqb_spec (c + 1) 0); [lia | done].
  - by rewrite bump_lookup_ne.
Qed.

(** Under a key that is not inherited, each object holds the number of
    entries that converted to that key. *)
Lemma forEach_counted docs acc s k c1 c2 :
  inherited k = false → forEach ts docs acc = Normal s →
  totalsByType acc !! k = counted c1 → totalsByUser acc !! k = counted c2 →
  totalsByType s !! k = counted (c1 + count_key (type_key ts) k docs) ∧
  totalsByUser s !! k = counted (c2 + count_key (user_key ts) k docs).
Proof.
  intros Hk. revert acc c1 c2. induction docs as [| e docs IH]; intros acc c1 c2; simpl.
  - intros [= <-] H1 H2. unfold count_key. simpl. by rewrite !N.add_0_r.
  - unfold tally_entry, count_key. simpl.
    destruct (type_key ts e) as [t |] eqn:Ht; simpl; [| discriminate].
    destruct (user_key ts e) as [u |] eqn:Hu; simpl; [| discriminate].
    intros Hs H1 H2.
    eapply IH in Hs as [Hs1 Hs2]; simpl;
      [| by apply bump_counted | by apply bump_counted].
    unfold count_key in Hs1, Hs2. rewrite Hs1, Hs2.
    split; f_equal.
    * destruct (String.eqb t k); simpl length; lia.
    * destruct (String.eqb u k); simpl length; lia.
Qed.

Lemma computeStats_counted docs s k :
  inherited k = false → computeStats ts docs = Normal s →
  totalsByType s !! k = counted (count_key (type_key ts) k docs) ∧
  totalsByUser s !! k = counted (count_key (user_key ts) k docs).
Proof.
  intros Hk Hs. by eapply (forEach_counted _ _ _ _ 0 0) in Hs.
Qed.

Lemma count_key_pos key k (docs : list document) e :
  e ∈ docs → key e = Normal k → (1 ≤ count_key key k docs)%N.
Proof.
  intros He Hkey. unfold count_key.
  assert (e ∈ List.filter (λ e, match key e with
                                | Normal k' => String.eqb k' k
                                | Throw _ => false
                                end) docs) as Hin.
  { apply list_elem_of_In, filter_In. split; [by apply list_elem_of_In |].
    rewrite Hkey. apply String.eqb_refl. }
  destruct (List.filter _ docs); [by apply elem_of_nil in Hin | simpl; lia].
Qed.
End Fold.

(** ** Sums of counts *)

Lemma Spec_sum_values_insert (m : gmap string N) k n :
  m !! k = None → Spec.sum_values (<[k := n]> m) = (Spec.sum_values m + n)%N.
Proof.
  intros Hk. unfold Spec.sum_values.
  rewrite map_fold_insert_L; [done | intros; lia | done].
Qed.

Lemma Spec_sum_values_increment (m : gmap string N) k :
  Spec.sum_values (Spec.increment m k) = (Spec.sum_values m + 1)%N.
Proof.
  unfold Spec.increment. destruct (m !! k) as [n |] eqn:Hk; simpl.
  - rewrite <- insert_delete_eq.
    rewrite Spec_sum_values_insert by apply lookup_delete_eq.
    rewrite <- (insert_delete_id m k n) at 2 by done.
    rewrite Spec_sum_values_insert by apply lookup_delete_eq. lia.
  - by rewrite Spec_sum_values_insert.
Qed.

Lemma sum_values_counts (c : gmap string N) :
  sum_values (Count <$> c) = Some (Spec.sum_values c).
Proof.
  unfold sum_values. rewrite map_fold_fmap.
  induction c as [| k n c Hk IH] using map_ind; [done |].
  rewrite Spec_sum_values_insert by done.
  rewrite map_fold_insert_L; [| | done].
  - rewrite IH. done.
  - intros j1 j2 z1 z2 [y |] _ _ _; simpl; [f_equal; lia | done].
Qed.

Section Sums.
Variable ts : float → string.
Variable choose : document → string → string → jsval.

Lemma Spec_fold_sums docs acc s :
  Spec.fold_from ts choose acc docs = Normal s →
  Spec.sum_values (Spec.totalsByType acc) = Spec.totalEntries acc →
  Spec.sum_values (Spec.totalsByUser acc) = Spec.totalEntries acc →
  Spec.sum_values (Spec.totalsByType s) = Spec.totalEntries s ∧
  Spec.sum_values (Spec.totalsByUser s) = Spec.totalEntries s.
Proof.
  revert acc. induction docs as [| e docs IH]; intros acc; simpl.
  - by intros [= <-].
  - unfold Spec.step.
    destruct (ToPropertyKey ts (choose e "type" "Unknown")) as [t |]; simpl; [| discriminate].
    destruct (ToPropertyKey ts (choose e "submitterId" "unknown")) as [u |]; simpl;
      [| discriminate].
    intros Hs Ht Hu. apply (IH _ Hs); simpl;
      rewrite Spec_sum_values_increment; congruence.
Qed.
End Sums.

(** X1: for entries none of whose keys is a name inherited from
    [Object.prototype], a summary the aggregation returns has totalEntries
    equal to the number of entries, and the values of totalsByType and of
    totalsByUser each sum to totalEntries. *)
Lemma computeStats_sums ts docs s :
  Forall (ordinary_keys ts) docs →
  computeStats ts docs = Normal s →
  totalEntries s = N.of_nat (length docs) ∧
  sum_values (totalsByType s) = Some (totalEntries s) ∧
  sum_values (totalsByUser s) = Some (totalEntries s).
Proof.
  intros Hdocs Hs. split.
  { apply totalEntries_forEach in Hs. by rewrite Hs. }
  unfold computeStats in Hs.
  change zero_stats with (as_response Spec.initial) in Hs.
  rewrite forEach_counts in Hs by done.
  destruct (Spec.fold_from ts Spec.if_truthy Spec.initial docs) as [c |] eqn:Hc;
    simpl in Hs; [| discriminate].
  injection Hs as <-. simpl. rewrite !sum_values_counts.
  apply Spec_fold_sums in Hc as [-> ->]; done.
Qed.

(** ** The handlers, case by case *)

Lemma uid_truthy_user b :
  truthy (uid_of b) = true → uid_of b = getField (getField b "user") "uid".
Proof.
  unfold uid_of, optField. by destruct (nullish (getField b "user")).
Qed.

Lemma post_api_waste_cases b env r :
  post_api_waste b env r =
    match destructure b "type" with
    | Throw err => (server_error (message err), r)
    | Normal _ =>
        if truthy (uid_of b) then
          let r1 := {| store := store r; calls := S (calls r) |} in
          if accepts env (calls r) then
            match wasteEntries (store r) !! autoId env with
            | Some _ => (server_error "6 ALREADY_EXISTS: Document already exists", r1)
            | None =>
                ({| status := 200; body := Created "Waste entry added" (autoId env) |},
                 {| store := put wasteEntriesCol (autoId env)
                               (wasteEntry (getField b "type") (getField b "volume")
                                  (getField b "location") (getField b "user") (now env))
                               (store r);
                    calls := S (calls r) |})
            end
          else (server_error (fault_message env (calls r)), r1)
        else (Unauthorized, r)
    end.
Proof.
  unfold post_api_waste, try_catch, eff_bind, lift, uid_of, accepts, fault_message.
  destruct (destructure b "type"); [| done].
  destruct (truthy _); simpl; [| done].
  unfold add, eff_bind, store_call, clock. simpl.
  destruct (faults env !! calls r) as [[msg |] |]; simpl; try done.
  all: by destruct (wasteEntries (store r) !! autoId env).
Qed.

Lemma post_api_events_cases b env r :
  post_api_events b env r =
    match destructure b "title" with
    | Throw err => (server_error (message err), r)
    | Normal _ =>
        if truthy (uid_of b) then
          let r1 := {| store := store r; calls := S (calls r) |} in
          if accepts env (calls r) then
            match events (store r) !! autoId env with
            | Some _ => (server_error "6 ALREADY_EXISTS: Document already exists", r1)
            | None =>
                ({| status := 200; body := Created "Event created" (autoId env) |},
                 {| store := put eventsCol (autoId env)
                               (event (getField b "title") (getField b "description")
                                  (getField b "location") (getField b "date")
                                  (getField b "user") (now env))
                               (store r);
                    calls := S (calls r) |})
            end
          else (server_error (fault_message env (calls r)), r1)
        else (Unauthorized, r)
    end.
Proof.
  unfold post_api_events, try_catch, eff_bind, lift, uid_of, accepts, fault_message.
  destruct (destructure b "title"); [| done].
  destruct (truthy _); simpl; [| done].
  unfold add, eff_bind, store_call, clock. simpl.
  destruct (faults env !! calls r) as [[msg |] |]; simpl; try done.
  all: by destruct (events (store r) !! autoId env).
Qed.

Lemma get_list_cases c env r :
  try_catch (snapshot ←' get c; eff_ret {| status := 200; body := Listing (with_id <$> snapshot) |})
    env r =
    let r1 := {| store := store r; calls := S (calls r) |} in
    if accepts env (calls r)
    then ({| status := 200; body := Listing (listing c (store r)) |}, r1)
    else (server_error (fault_message env (calls r)), r1).
Proof.
  unfold try_catch, eff_bind, get, eff_bind, store_call, accepts, fault_message, listing.
  by destruct (faults env !! calls r) as [[msg |] |].
Qed.

Lemma get_api_stats_cases ts env r :
  get_api_stats ts env r =
    let r1 := {| store := store r; calls := S (calls r) |} in
    if accepts env (calls r)
    then (stats_response ts (scanned (store r)), r1)
    else (server_error (fault_message env (calls r)), r1).
Proof.
  unfold get_api_stats, try_catch, eff_bind, get, eff_bind, store_call, lift, accepts,
    fault_message, stats_response, scanned.
  destruct (faults env !! calls r) as [[msg |] |]; simpl; try done.
  all: by destruct (computeStats ts _).
Qed.

Lemma destructure_ok b first : nullish b = false → destructure b first = Normal ().
Proof. by destruct b. Qed.

Lemma accepts_false env n msg :
  faults env !! n = Some (Some msg) → accepts env n = false ∧ fault_message env n = msg.
Proof. unfold accepts, fault_message. by intros ->. Qed.

(** ** The write endpoints *)

Section Server.
(** The rendering of numbers, [Number::toString]. *)
Variable ts : float → string.

(** A guard that fails answers 401 before any store call. *)
Lemma unauthorized_when_uid_falsy env fs b :
  nullish b = false → truthy (uid_of b) = false →
  serve ts (POST_waste b) env fs = (Unauthorized, fs, 0) ∧
  serve ts (POST_events b) env fs = (Unauthorized, fs, 0).
Proof.
  intros Hb Hu. unfold serve, route.
  rewrite post_api_waste_cases, post_api_events_cases.
  by rewrite !destructure_ok, Hu by done.
Qed.

(** C3: for every request body in which [user.uid] is absent, POST
    /api/waste and POST /api/events both answer 401 with the body
    [{error: "Unauthorized"}], make no store call, and leave the store,
    hence every listing, as it was. *)
Theorem unauthorized_without_uid env fs b :
  nullish b = false → uid_of b = JUndefined →
  serve ts (POST_waste b) env fs =
    ({| status := 401; body := Failure "Unauthorized" |}, fs, 0) ∧
  serve ts (POST_events b) env fs =
    ({| status := 401; body := Failure "Unauthorized" |}, fs, 0).
Proof.
  intros Hb Hu. apply unauthorized_when_uid_falsy; [done |]. by rewrite Hu.
Qed.

(** C6: when the store call of a request fails with an error, the
    handler answers 500 with the body [{error: err.message}], for GET
    /api/stats as for both list and both write endpoints; the store is
    unchanged and the handler has made exactly that one store call,
    whatever a second call would have answered. *)
Theorem store_failure_is_500 rq env fs msg :
  faults env !! 0 = Some (Some msg) → reaches_store rq = true →
  serve ts rq env fs = ({| status := 500; body := Failure msg |}, fs, 1).
Proof.
  intros [Hacc Hmsg]%accepts_false Hrq. unfold serve, route.
  destruct rq as [b | | b | | |]; simpl in Hrq; try discriminate.
  - apply andb_true_iff in Hrq as [Hb%negb_true_iff Hu].
    rewrite post_api_waste_cases, destructure_ok, Hu by done. simpl.
    by rewrite Hacc, Hmsg.
  - unfold get_api_waste. rewrite get_list_cases. simpl. by rewrite Hacc, Hmsg.
  - apply andb_true_iff in Hrq as [Hb%negb_true_iff Hu].
    rewrite post_api_events_cases, destructure_ok, Hu by done. simpl.
    by rewrite Hacc, Hmsg.
  - unfold get_api_events. rewrite get_list_cases. simpl. by rewrite Hacc, Hmsg.
  - rewrite get_api_stats_cases. simpl. by rewrite Hacc, Hmsg.
Qed.


(** What a request does to the store: nothing, or one append. *)
Lemma serve_cases rq env fs res fs' n :
  serve ts rq env fs = (res, fs', n) →
  (fs' = fs ∧ created_id rq res = None) ∨
  (∃ b, rq = POST_waste b ∧
        truthy (getField (getField b "user") "uid") = true ∧
        wasteEntries fs !! autoId env = None ∧
        res = {| status := 200; body := Created "Waste entry added" (autoId env) |} ∧
        fs' = put wasteEntriesCol (autoId env)
                (wasteEntry (getField b "type") (getField b "volume")
                   (getField b "location") (getField b "user") (now env)) fs ∧
        n = 1) ∨
  (∃ b d, rq = POST_events b ∧ created_id rq res = None ∧
          fs' = put eventsCol (autoId env) d fs).
Proof.
  unfold serve, route. destruct rq as [b | | b | | |].
  - rewrite post_api_waste_cases.
    destruct (destructure b "type"); simpl; [| intros [= <- <- <-]; by left].
    destruct (truthy (uid_of b)) eqn:Hu; simpl; [| intros [= <- <- <-]; by left].
    destruct (accepts env 0); simpl; [| intros [= <- <- <-]; by left].
    destruct (wasteEntries fs !! autoId env) eqn:Hid; simpl;
      intros [= <- <- <-]; [by left |].
    right; left. exists b. rewrite <- uid_truthy_user by done. done.
  - unfold get_api_waste. rewrite get_list_cases. simpl.
    destruct (accepts env 0); intros [= <- <- <-]; by left.
  - rewrite post_api_events_cases.
    destruct (destructure b "title"); simpl; [| intros [= <- <- <-]; by left].
    destruct (truthy (uid_of b)) eqn:Hu; simpl; [| intros [= <- <- <-]; by left].
    destruct (accepts env 0); simpl; [| intros [= <- <- <-]; by left].
    destruct (events fs !! autoId env) eqn:Hid; simpl;
      intros [= <- <- <-]; [by left |].
    right; right. by eexists _, _.
  - unfold get_api_events. rewrite get_list_cases. simpl.
    destruct (accepts env 0); intros [= <- <- <-]; by left.
  - rewrite get_api_stats_cases. simpl.
    destruct (accepts env 0); intros [= <- <- <-]; by left.
  - intros [= <- <- <-]. by left.
Qed.

Lemma serve_wasteEntries_subseteq rq env fs res fs' n :
  serve ts rq env fs = (res, fs', n) → wasteEntries fs ⊆ wasteEntries fs'.
Proof.
  intros [[-> _] | [(b & _ & _ & Hid & _ & -> & _) | (b & d & _ & _ & ->)]]%serve_cases;
    simpl; [done | | done].
  by apply insert_subseteq.
Qed.

Lemma run_cons rq env rest fs :
  run ts ((rq, env) :: rest) fs =
    let '(res, fs', _) := serve ts rq env fs in
    let '(ress, fs'') := run ts rest fs' in
    (res :: ress, fs'').
Proof. reflexivity. Qed.

Lemma run_wasteEntries_subseteq script fs ress fs' :
  run ts script fs = (ress, fs') → wasteEntries fs ⊆ wasteEntries fs'.
Proof.
  revert fs ress. induction script as [| [rq env] rest IH]; intros fs ress.
  - by intros [= _ <-].
  - rewrite run_cons.
    destruct (serve ts rq env fs) as [[res fs1] n] eqn:Hserve.
    destruct (run ts rest fs1) as [ress' fs2] eqn:Hrun.
    intros [= _ <-]. etrans; [by eapply serve_wasteEntries_subseteq | by eapply IH].
Qed.





End Server.

(** ** Runs *)

Section Runs.
(** The rendering of numbers, [Number::toString]. *)
Variable ts : float → string.

(** An identifier issued along a run was not in the store the run
    started from. *)
Lemma issued_fresh script fs ress fs' id :
  run ts script fs = (ress, fs') → id ∈ issued script ress → id ∉ dom (wasteEntries fs).
Proof.
  revert fs ress. induction script as [| [rq env] rest IH]; intros fs ress.
  - intros [= <- _]. unfold issued. simpl. by intros ?%elem_of_nil.
  - rewrite run_cons.
    destruct (serve ts rq env fs) as [[res fs1] n] eqn:Hserve.
    destruct (run ts rest fs1) as [ress' fs2] eqn:Hrun.
    intros [= <- <-]. unfold issued. simpl.
    pose proof (serve_wasteEntries_subseteq ts _ _ _ _ _ _ Hserve) as Hsub.
    destruct (created_id rq res) as [id' |] eqn:Hcreated; simpl.
    + intros [-> | Hin]%elem_of_cons.
      * apply serve_cases in Hserve
          as [[_ ?] | [(b & -> & _ & Hid & -> & _ & _) | (b & d & _ & ? & _)]];
          [congruence | | congruence].
        simpl in Hcreated. injection Hcreated as <-. by apply not_elem_of_dom.
      * intros Hdom. eapply (IH _ _ Hrun); [done |].
        by eapply (subseteq_dom (wasteEntries fs)).
    + intros Hin Hdom. eapply (IH _ _ Hrun); [done |].
      by eapply (subseteq_dom (wasteEntries fs)).
Qed.

(** The identifiers issued for waste entries along a run are pairwise
    distinct. *)
Lemma issued_NoDup script fs ress fs' :
  run ts script fs = (ress, fs') → NoDup (issued script ress).
Proof.
  revert fs ress. induction script as [| [rq env] rest IH]; intros fs ress.
  - intros [= <- _]. constructor.
  - rewrite run_cons.
    destruct (serve ts rq env fs) as [[res fs1] n] eqn:Hserve.
    destruct (run ts rest fs1) as [ress' fs2] eqn:Hrun.
    intros [= <- <-]. unfold issued. simpl.
    destruct (created_id rq res) as [id |] eqn:Hcreated; simpl; [| by eapply IH].
    constructor; [| by eapply IH].
    intros Hin. eapply issued_fresh; [done | done |].
    apply serve_cases in Hserve
      as [[_ ?] | [(b & -> & _ & _ & -> & -> & _) | (b & d & _ & ? & _)]];
      [congruence | | congruence].
    simpl in Hcreated. injection Hcreated as <-. simpl.
    rewrite dom_insert. set_solver.
Qed.

Lemma issued_cons rq env rest res ress :
  issued ((rq, env) :: rest) (res :: ress) =
    match created_id rq res with
    | Some id => id :: issued rest ress
    | None => issued rest ress
    end.
Proof. reflexivity. Qed.

Lemma run_size script fs ress fs' :
  run ts script fs = (ress, fs') →
  size (wasteEntries fs') = size (wasteEntries fs) + length (issued script ress).
Proof.
  revert fs ress. induction script as [| [rq env] rest IH]; intros fs ress.
  - intros [= <- <-]. unfold issued. simpl. lia.
  - rewrite run_cons.
    destruct (serve ts rq env fs) as [[res fs1] n] eqn:Hserve.
    destruct (run ts rest fs1) as [ress' fs2] eqn:Hrun.
    intros [= <- <-]. rewrite (IH _ _ Hrun), issued_cons.
    apply serve_cases in Hserve
      as [[-> ->] | [(b & -> & _ & Hid & -> & -> & _) | (b & d & _ & -> & ->)]];
      simpl; [lia | | lia].
    rewrite map_size_insert_None by done. lia.
Qed.

(** X3: after any run from the empty store, a summary the aggregation
    returns on the stored waste entries has totalEntries equal to the
    number of waste entries the run created. *)
Theorem totalEntries_counts_creations script ress fs s :
  run ts script empty_store = (ress, fs) →
  computeStats ts (scanned fs) = Normal s →
  totalEntries s = N.of_nat (length (issued script ress)).
Proof.
  intros Hrun Hs. apply totalEntries_forEach in Hs. rewrite Hs. simpl.
  apply run_size in Hrun. simpl in Hrun. rewrite map_size_empty in Hrun.
  unfold scanned. rewrite length_fmap, length_map_to_list. lia.
Qed.
End Runs.

(** ** The read endpoints and the statistics *)

Section Reads.
(** The rendering of numbers, [Number::toString]. *)
Variable ts : float → string.

Lemma serve_GET_stats env fs :
  serve ts GET_stats env fs =
    (if accepts env 0 then stats_response ts (scanned fs)
     else server_error (fault_message env 0), fs, 1).
Proof.
  unfold serve, route. rewrite get_api_stats_cases. simpl. by destruct (accepts env 0).
Qed.

Lemma serve_GET_waste env fs :
  serve ts GET_waste env fs =
    (if accepts env 0 then {| status := 200; body := Listing (listing wasteEntriesCol fs) |}
     else server_error (fault_message env 0), fs, 1).
Proof.
  unfold serve, route, get_api_waste. rewrite get_list_cases. simpl.
  by destruct (accepts env 0).
Qed.

(** C5: the aggregation does not depend on the order in which the
    entries are scanned; GET /api/stats and GET /api/waste write
    nothing, and when the store answers, their response is a function of
    the stored waste entries alone, so that two calls in a row with no
    write in between return equal results. *)
Theorem reads_are_deterministic :
  (∀ l1 l2, l1 ≡ₚ l2 → computeStats ts l1 = computeStats ts l2) ∧
  (∀ env fs, accepts env 0 = true →
     serve ts GET_stats env fs = (stats_response ts (scanned fs), fs, 1) ∧
     serve ts GET_waste env fs =
       ({| status := 200; body := Listing (listing wasteEntriesCol fs) |}, fs, 1)) ∧
  (∀ rq env1 env2 fs,
     rq = GET_stats ∨ rq = GET_waste →
     accepts env1 0 = true → accepts env2 0 = true →
     ∃ res, run ts [(rq, env1); (rq, env2)] fs = ([res; res], fs)).
Proof.
  split_and!.
  - intros l1 l2 Hperm. unfold computeStats. by apply forEach_Permutation.
  - intros env fs Hacc. by rewrite serve_GET_stats, serve_GET_waste, Hacc.
  - intros rq env1 env2 fs [-> | ->] H1 H2; rewrite !run_cons.
    + rewrite serve_GET_stats, H1. simpl. rewrite serve_GET_stats, H2. by eexists.
    + rewrite serve_GET_waste, H1. simpl. rewrite serve_GET_waste, H2. by eexists.
Qed.

(** C8: on an empty collection of waste entries the aggregation returns
    [{totalEntries: 0, totalsByType: {}, totalsByUser: {}}], and GET
    /api/stats answers 200 with it whenever the store answers. *)
Theorem stats_of_empty_collection env ev :
  computeStats ts [] =
    Normal {| totalEntries := 0; totalsByType := ∅; totalsByUser := ∅ |} ∧
  serve ts GET_stats env {| wasteEntries := ∅; events := ev |} =
    (if accepts env 0
     then {| status := 200;
             body := Summary {| totalEntries := 0; totalsByType := ∅; totalsByUser := ∅ |} |}
     else server_error (fault_message env 0),
     {| wasteEntries := ∅; events := ev |}, 1).
Proof.
  split; [done |]. rewrite serve_GET_stats.
  unfold scanned. simpl. by rewrite map_to_list_empty.
Qed.

Lemma type_key_falsy e :
  truthy (prop e "type") = false → type_key ts e = Normal "Unknown".
Proof. unfold type_key, or_else. by intros ->. Qed.

Lemma user_key_falsy e :
  truthy (prop e "submitterId") = false → user_key ts e = Normal "unknown".
Proof. unfold user_key, or_else. by intros ->. Qed.

(** C9: the fallback keys are taken for every falsy value, not only for
    an absent field.  An entry whose type is falsy (absent, [null],
    [false], [0], [NaN], the empty string) is counted under "Unknown":
    that is its key, and in every summary the aggregation returns,
    totalsByType.Unknown is the number of entries with that key, at least
    one.  Likewise a falsy submitterId and "unknown" in totalsByUser. *)
Theorem falsy_fields_fall_back docs s e :
  computeStats ts docs = Normal s → e ∈ docs →
  (truthy (prop e "type") = false →
     type_key ts e = Normal "Unknown" ∧
     ∃ n, totalsByType s !! "Unknown" = Some (Count n) ∧
          n = count_key (type_key ts) "Unknown" docs ∧ (1 ≤ n)%N) ∧
  (truthy (prop e "submitterId") = false →
     user_key ts e = Normal "unknown" ∧
     ∃ n, totalsByUser s !! "unknown" = Some (Count n) ∧
          n = count_key (user_key ts) "unknown" docs ∧ (1 ≤ n)%N).
Proof.
  intros Hs He.
  destruct (computeStats_counted ts docs s "Unknown" eq_refl Hs) as [HT _].
  destruct (computeStats_counted ts docs s "unknown" eq_refl Hs) as [_ HU].
  split; intros Hfalsy.
  - pose proof (type_key_falsy e Hfalsy) as Hkey. split; [done |].
    pose proof (count_key_pos _ _ _ _ He Hkey) as Hpos.
    eexists. split_and!; [| done | done].
    rewrite HT. unfold counted.
    destruct (N.eqb_spec (count_key (type_key ts) "Unknown" docs) 0); [lia | done].
  - pose proof (user_key_falsy e Hfalsy) as Hkey. split; [done |].
    pose proof (count_key_pos _ _ _ _ He Hkey) as Hpos.
    eexists. split_and!; [| done | done].
    rewrite HU. unfold counted.
    destruct (N.eqb_spec (count_key (user_key ts) "unknown" docs) 0); [lia | done].
Qed.

(** C2, amended: on entries whose keys are not names inherited from
    [Object.prototype], the aggregation is the specified fold with the
    fallbacks taken for falsy fields: from totalEntries = 0 and two empty
    maps, each entry increments totalEntries, totalsByType[t] and
    totalsByUser[u], where t is entry.type if truthy else "Unknown" and u
    is entry.submitterId if truthy else "unknown"; an entry with no type
    field is grouped under "Unknown". *)
Theorem computeStats_is_amended_fold docs :
  Forall (ordinary_keys ts) docs →
  computeStats ts docs = as_response <$> Spec.computeStats ts Spec.if_truthy docs ∧
  (∀ e, prop e "type" = JUndefined → type_key ts e = Normal "Unknown").
Proof.
  intros Hdocs. split.
  - unfold computeStats, Spec.computeStats.
    change zero_stats with (as_response Spec.initial). by apply forEach_counts.
  - intros e He. apply type_key_falsy. by rewrite He.
Qed.

(** C1, on the code: a waste entry created with the type "__proto__" is
    counted in totalEntries and in totalsByUser, and in no property of
    totalsByType, whose values then sum to 0 and not to 1. *)
Theorem proto_type_is_not_counted :
  let b := JObj {[ "type" := JStr "__proto__"; "volume" := JStr "1 bag";
                   "location" := JStr "Zapote";
                   "user" := JObj {[ "uid" := JStr "u1" ]} ]} in
  let env1 := {| now := "2024-05-01T08:00:00.000Z"; autoId := "w1"; faults := [] |} in
  let env2 := {| now := "2024-05-01T08:00:05.000Z"; autoId := "w2"; faults := [] |} in
  ∃ fs s,
    run ts [(POST_waste b, env1); (GET_stats, env2)] empty_store =
      ([ {| status := 200; body := Created "Waste entry added" "w1" |};
         {| status := 200; body := Summary s |} ], fs) ∧
    totalEntries s = 1%N ∧
    totalsByType s = ∅ ∧
    sum_values (totalsByType s) = Some 0%N ∧
    totalsByUser s = {[ "u1" := Count 1 ]} ∧
    sum_values (totalsByUser s) = Some 1%N.
Proof.
  intros b env1 env2. eexists _, _. split; [vm_compute; reflexivity |].
  split_and!; vm_compute; reflexivity.
Qed.

(** An entry whose type is "constructor" leaves a string, not a count,
    in totalsByType: the values of the object then have no numeric sum. *)
Theorem constructor_type_holds_text :
  computeStats ts [stored "constructor" "u1"] =
    Normal {| totalEntries := 1;
              totalsByType := {[ "constructor" := Text "function Object() { [native code] }1" ]};
              totalsByUser := {[ "u1" := Count 1 ]} |} ∧
  sum_values ({[ "constructor" := Text "function Object() { [native code] }1" ]}
                : gmap string tally) = None.
Proof. split; vm_compute; reflexivity. Qed.
End Reads.

(** ** The theorems at sample inputs *)

Lemma unauthorized_without_uid_witness :
  let b := JObj {[ "type" := JStr "Plastic"; "user" := JObj ∅ ]} in
  nullish b = false ∧ uid_of b = JUndefined ∧
  serve no_numbers (POST_waste b) (calm "w1") empty_store =
    ({| status := 401; body := Failure "Unauthorized" |}, empty_store, 0) ∧
  serve no_numbers (POST_events b) (calm "w1") empty_store =
    ({| status := 401; body := Failure "Unauthorized" |}, empty_store, 0).
Proof.
  intros b.
  exact (conj eq_refl (conj eq_refl
           (unauthorized_without_uid no_numbers (calm "w1") empty_store b eq_refl eq_refl))).
Defined.

Lemma store_failure_is_500_witness :
  faults (stormy "w1" "14 UNAVAILABLE") !! 0 = Some (Some "14 UNAVAILABLE") ∧
  reaches_store GET_stats = true ∧
  serve no_numbers GET_stats (stormy "w1" "14 UNAVAILABLE") empty_store =
    ({| status := 500; body := Failure "14 UNAVAILABLE" |}, empty_store, 1).
Proof.
  exact (conj eq_refl (conj eq_refl
           (store_failure_is_500 no_numbers GET_stats (stormy "w1" "14 UNAVAILABLE")
              empty_store "14 UNAVAILABLE" eq_refl eq_refl))).
Defined.




Lemma reads_are_deterministic_witness :
  accepts (calm "w1") 0 = true ∧
  ∃ res, run no_numbers [(GET_stats, calm "w1"); (GET_stats, calm "w2")] empty_store =
           ([res; res], empty_store).
Proof.
  split; [reflexivity |].
  exact (proj2 (proj2 (reads_are_deterministic no_numbers))
           GET_stats (calm "w1") (calm "w2") empty_store (or_introl eq_refl) eq_refl eq_refl).
Defined.

Lemma falsy_fields_fall_back_witness :
  let docs := [stored "" "u1"; stored "Plastic" "u2"] in
  ∃ s, computeStats no_numbers docs = Normal s ∧
       stored "" "u1" ∈ docs ∧
       truthy (prop (stored "" "u1") "type") = false ∧
       totalsByType s !! "Unknown" = Some (Count 1).
Proof.
  intros docs.
  exists {| totalEntries := 2;
            totalsByType := {[ "Unknown" := Count 1; "Plastic" := Count 1 ]};
            totalsByUser := {[ "u1" := Count 1; "u2" := Count 1 ]} |}.
  assert (computeStats no_numbers docs = Normal
            {| totalEntries := 2;
               totalsByType := {[ "Unknown" := Count 1; "Plastic" := Count 1 ]};
               totalsByUser := {[ "u1" := Count 1; "u2" := Count 1 ]} |}) as Hs
    by (vm_compute; reflexivity).
  assert (stored "" "u1" ∈ docs) as Hin by left.
  split; [exact Hs |]. split; [exact Hin |]. split; [reflexivity |].
  destruct (falsy_fields_fall_back no_numbers docs _ _ Hs Hin) as [Htype _].
  destruct (Htype eq_refl) as (_ & n & Hn & -> & _).
  exact Hn.
Defined.

Lemma ordinary_keys_stored ts type uid :
  inherited (if String.eqb type "" then "Unknown" else type) = false →
  inherited (if String.eqb uid "" then "unknown" else uid) = false →
  ordinary_keys ts (stored type uid).
Proof.
  intros Ht Hu k. unfold type_key, user_key, stored, prop, or_else.
  simplify_map_eq. simpl.
  destruct (String.eqb type ""), (String.eqb uid ""); simpl; intros [[= <-] | [= <-]]; done.
Qed.

Lemma computeStats_is_amended_fold_witness :
  let docs := [stored "" "u1"; stored "Plastic" "u2"] in
  Forall (ordinary_keys no_numbers) docs ∧
  computeStats no_numbers docs =
    as_response <$> Spec.computeStats no_numbers Spec.if_truthy docs.
Proof.
  intros docs.
  assert (Forall (ordinary_keys no_numbers) docs) as Hdocs
    by (repeat constructor; by apply ordinary_keys_stored).
  split; [exact Hdocs |].
  exact (proj1 (computeStats_is_amended_fold no_numbers docs Hdocs)).
Defined.

Lemma totalEntries_counts_creations_witness :
  let script := [(POST_waste (waste_body "Plastic" "u1"), calm "w1");
                 (POST_waste (waste_body "__proto__" "u2"), calm "w2")] in
  ∃ ress fs s,
    run no_numbers script empty_store = (ress, fs) ∧
    computeStats no_numbers (scanned fs) = Normal s ∧
    length (issued script ress) = 2 ∧
    totalEntries s = 2%N.
Proof.
  intros script.
  pose (out := run no_numbers script empty_store).
  exists out.1, out.2,
    {| totalEntries := 2;
       totalsByType := {[ "Plastic" := Count 1 ]};
       totalsByUser := {[ "u1" := Count 1; "u2" := Count 1 ]} |}.
  assert (run no_numbers script empty_store = (out.1, out.2)) as Hrun
    by (vm_compute; reflexivity).
  assert (computeStats no_numbers (scanned out.2) = Normal
            {| totalEntries := 2;
               totalsByType := {[ "Plastic" := Count 1 ]};
               totalsByUser := {[ "u1" := Count 1; "u2" := Count 1 ]} |}) as Hs
    by (vm_compute; reflexivity).
  split; [exact Hrun |]. split; [exact Hs |]. split; [reflexivity |].
  exact (totalEntries_counts_creations no_numbers script _ _ _ Hrun Hs).
Defined.

Lemma issued_NoDup_witness :
  let script := [(POST_waste (waste_body "Plastic" "u1"), calm "w1");
                 (POST_waste (waste_body "Glass" "u2"), calm "w1");
                 (POST_waste (waste_body "Paper" "u3"), calm "w3")] in
  ∃ ress fs,
    run no_numbers script empty_store = (ress, fs) ∧
    issued script ress = ["w1"; "w3"] ∧
    NoDup (issued script ress).
Proof.
  intros script.
  pose (out := run no_numbers script empty_store).
  exists out.1, out.2.
  assert (run no_numbers script empty_store = (out.1, out.2)) as Hrun
    by (vm_compute; reflexivity).
  split; [exact Hrun |]. split; [vm_compute; reflexivity |].
  exact (issued_NoDup no_numbers script _ _ _ Hrun).
Defined.

Lemma computeStats_sums_witness :
  let docs := [stored "Plastic" "u1"; stored "Plastic" "u2"] in
  Forall (ordinary_keys no_numbers) docs ∧
  ∃ s, computeStats no_numbers docs = Normal s ∧
       totalEntries s = 2%N ∧
       sum_values (totalsByType s) = Some (totalEntries s) ∧
       sum_values (totalsByUser s) = Some (totalEntries s).
Proof.
  intros docs.
  assert (Forall (ordinary_keys no_numbers) docs) as Hdocs
    by (repeat constructor; by apply ordinary_keys_stored).
  split; [exact Hdocs |].
  exists {| totalEntries := 2;
            totalsByType := {[ "Plastic" := Count 2 ]};
            totalsByUser := {[ "u1" := Count 1; "u2" := Count 1 ]} |}.
  assert (computeStats no_numbers docs = Normal
            {| totalEntries := 2;
               totalsByType := {[ "Plastic" := Count 2 ]};
               totalsByUser := {[ "u1" := Count 1; "u2" := Count 1 ]} |}) as Hs
    by (vm_compute; reflexivity).
  split; [exact Hs |].
  exact (computeStats_sums no_numbers docs _ Hdocs Hs).
Defined.

(** ** Where the code departs from the stated claims *)

(** C2 as stated fails on an entry whose type is present and empty: the
    specified fold counts it under the empty key, the code under
    "Unknown".  No inherited name is involved. *)
Lemma empty_type_is_counted_as_Unknown :
  let e := stored "" "u1" in
  (∀ ts, ordinary_keys ts e) ∧
  (∀ ts, Spec.computeStats ts Spec.if_present [e] =
           Normal {| Spec.totalEntries := 1;
                     Spec.totalsByType := {[ "" := 1%N ]};
                     Spec.totalsByUser := {[ "u1" := 1%N ]} |}) ∧
  (∀ ts, computeStats ts [e] =
           Normal {| totalEntries := 1;
                     totalsByType := {[ "Unknown" := Count 1 ]};
                     totalsByUser := {[ "u1" := Count 1 ]} |}) ∧
  (∀ ts, computeStats ts [e] ≠
           as_response <$> Spec.computeStats ts Spec.if_present [e]).
Proof.
  intros e. split_and!.
  - intros ts. by apply ordinary_keys_stored.
  - intros ts. vm_compute. reflexivity.
  - intros ts. vm_compute. reflexivity.
  - intros ts. vm_compute. discriminate.
Qed.


(** ** Further properties of the aggregation *)

Lemma text_after_nonempty name n : String.eqb (text_after name n) "" = false.
Proof.
  induction n as [| n IH]; simpl.
  - reflexivity.
  - destruct (text_after name n); [discriminate | reflexivity].
Qed.

Lemma inherited_function_not_proto k name :
  inherited_function k = Some name → String.eqb k "__proto__" = false.
Proof.
  intros Hk. destruct (String.eqb_spec k "__proto__") as [-> | _]; [| done].
  vm_compute in Hk. discriminate.
Qed.

Lemma bump_texted own k k' name c :
  inherited_function k = Some name → own !! k = texted name c →
  bump own k' !! k = texted name (if String.eqb k' k then S c else c).
Proof.
  intros Hk Hown. destruct (String.eqb_spec k' k) as [-> | Hne].
  - unfold bump, assign, plus_one.
    rewrite (inherited_function_not_proto _ _ Hk), lookup_insert_eq, Hown, Hk.
    destruct c as [| c]; [done |].
    unfold texted. by rewrite (text_after_nonempty name (S c)).
  - by rewrite bump_lookup_ne.
Qed.

Lemma bump_proto own k : own !! "__proto__" = None → bump own k !! "__proto__" = None.
Proof.
  intros Hown. unfold bump, assign.
  destruct (String.eqb_spec k "__proto__") as [-> | Hne]; [done |].
  by rewrite lookup_insert_ne.
Qed.

Section Summary.
(** The rendering of numbers, [Number::toString]. *)
Variable ts : float → string.

Lemma forEach_texted docs acc s k name c1 c2 :
  inherited_function k = Some name → forEach ts docs acc = Normal s →
  totalsByType acc !! k = texted name c1 → totalsByUser acc !! k = texted name c2 →
  totalsByType s !! k = texted name (c1 + N.to_nat (count_key (type_key ts) k docs)) ∧
  totalsByUser s !! k = texted name (c2 + N.to_nat (count_key (user_key ts) k docs)).
Proof.
  intros Hk. revert acc c1 c2. induction docs as [| e docs IH]; intros acc c1 c2; simpl.
  - intros [= <-] H1 H2. unfold count_key. simpl. by rewrite !Nat.add_0_r.
  - unfold tally_entry, count_key. simpl.
    destruct (type_key ts e) as [t |] eqn:Ht; simpl; [| discriminate].
    destruct (user_key ts e) as [u |] eqn:Hu; simpl; [| discriminate].
    intros Hs H1 H2.
    eapply IH in Hs as [Hs1 Hs2]; simpl;
      [| by apply bump_texted | by apply bump_texted].
    unfold count_key in Hs1, Hs2. rewrite Hs1, Hs2, !Nat2N.id.
    split; f_equal.
    + destruct (String.eqb t k); simpl length; lia.
    + destruct (String.eqb u k); simpl length; lia.
Qed.

Lemma forEach_proto docs acc s :
  forEach ts docs acc = Normal s →
  totalsByType acc !! "__proto__" = None → totalsByUser acc !! "__proto__" = None →
  totalsByType s !! "__proto__" = None ∧ totalsByUser s !! "__proto__" = None.
Proof.
  revert acc. induction docs as [| e docs IH]; intros acc; simpl.
  - by intros [= <-].
  - unfold tally_entry.
    destruct (type_key ts e) as [t |]; simpl; [| discriminate].
    destruct (user_key ts e) as [u |]; simpl; [| discriminate].
    intros Hs H1 H2. apply (IH _ Hs); simpl; by apply bump_proto.
Qed.

(** X2: in every summary the aggregation returns, a key that names a
    function inherited from [Object.prototype] holds no count: it is
    absent when no entry has that key, and otherwise holds the source text
    of the function followed by one "1" for each entry with that key; the
    key "__proto__" is never a property of either object, however many
    entries have it. *)
Theorem inherited_keys_hold_text docs s :
  computeStats ts docs = Normal s →
  (∀ k name, inherited_function k = Some name →
     totalsByType s !! k = texted name (N.to_nat (count_key (type_key ts) k docs)) ∧
     totalsByUser s !! k = texted name (N.to_nat (count_key (user_key ts) k docs))) ∧
  totalsByType s !! "__proto__" = None ∧
  totalsByUser s !! "__proto__" = None.
Proof.
  intros Hs. split.
  - intros k name Hk.
    by destruct (forEach_texted docs zero_stats s k name 0 0 Hk Hs eq_refl eq_refl).
  - by apply (forEach_proto docs zero_stats s Hs).
Qed.

(** X4: in every summary the aggregation returns, a key that is not
    inherited from [Object.prototype] holds exactly the number of entries
    whose type (in totalsByType) or submitter (in totalsByUser) converts
    to that key, and is absent when there is none. *)
Theorem ordinary_keys_hold_counts docs s k :
  inherited k = false → computeStats ts docs = Normal s →
  totalsByType s !! k = counted (count_key (type_key ts) k docs) ∧
  totalsByUser s !! k = counted (count_key (user_key ts) k docs).
Proof.
  intros Hk Hs. pose proof (forEach_counted ts docs zero_stats s k 0 0 Hk Hs) as H.
  by apply H.
Qed.

Lemma tally_entry_converts acc e :
  converts ts e = true → ∃ acc', tally_entry ts acc e = Normal acc'.
Proof.
  unfold converts, tally_entry.
  destruct (type_key ts e); [| discriminate].
  destruct (user_key ts e); [| discriminate]. simpl. by eexists.
Qed.

Lemma tally_entry_fails acc e :
  converts ts e = false → tally_entry ts acc e = Throw not_primitive.
Proof.
  unfold converts. intros Hc.
  destruct (tally_entry ts acc e) as [a |] eqn:Ha.
  - unfold tally_entry in Ha.
    destruct (type_key ts e); [| discriminate].
    destruct (user_key ts e); discriminate.
  - by apply tally_entry_throws in Ha as [-> _].
Qed.

Lemma forEach_converts docs acc :
  forallb (converts ts) docs = true → ∃ s, forEach ts docs acc = Normal s.
Proof.
  revert acc. induction docs as [| e docs IH]; intros acc; simpl.
  - by eexists.
  - intros [He Hdocs]%andb_true_iff.
    destruct (tally_entry_converts acc e He) as [acc' ->]. simpl. by apply IH.
Qed.

Lemma forEach_fails docs acc :
  forallb (converts ts) docs = false → forEach ts docs acc = Throw not_primitive.
Proof.
  revert acc. induction docs as [| e docs IH]; intros acc; simpl; [discriminate |].
  destruct (converts ts e) eqn:He; simpl.
  - intros Hdocs. destruct (tally_entry_converts acc e He) as [acc' ->]. simpl.
    by apply IH.
  - intros _. by rewrite tally_entry_fails.
Qed.

(** X5: the aggregation returns a summary exactly when both keys of
    every entry convert, and its totalEntries is then the number of
    entries; as soon as one key of one entry does not convert, it throws
    the TypeError "Cannot convert object to primitive value", wherever
    that entry stands. *)
Theorem computeStats_returns_iff_keys_convert docs :
  if forallb (converts ts) docs
  then ∃ s, computeStats ts docs = Normal s ∧ totalEntries s = N.of_nat (length docs)
  else computeStats ts docs = Throw not_primitive.
Proof.
  destruct (forallb (converts ts) docs) eqn:Hdocs.
  - destruct (forEach_converts docs zero_stats Hdocs) as [s Hs].
    exists s. split; [done |]. apply totalEntries_forEach in Hs. by rewrite Hs.
  - by apply forEach_fails.
Qed.

Lemma ToString_scalar v : scalar v = true → ∃ k, ToString ts v = Normal k.
Proof. destruct v as [| | [] | | | |]; simpl; try discriminate; by eexists. Qed.

Lemma scalar_fields_converts e : scalar_fields e = true → converts ts e = true.
Proof.
  unfold scalar_fields, converts, type_key, user_key, ToPropertyKey, or_else.
  intros [Ht Hu]%andb_true_iff.
  assert (∀ v fallback, scalar v = true →
            ∃ k, ToString ts (if truthy v then v else JStr fallback) = Normal k) as Hkey.
  { intros v fallback Hv. destruct (truthy v); [by apply ToString_scalar | by eexists]. }
  destruct (Hkey _ "Unknown" Ht) as [t ->]. by destruct (Hkey _ "unknown" Hu) as [u ->].
Qed.

(** X6: when the type and the submitterId of every stored waste entry
    are scalars (strings, numbers, booleans, [null]) or absent, and the
    store answers, GET /api/stats answers 200 with a summary whose
    totalEntries is the number of stored waste entries. *)
Theorem scalar_fields_give_200 env fs :
  (∀ id d, wasteEntries fs !! id = Some d → scalar_fields d = true) →
  accepts env 0 = true →
  ∃ s, serve ts GET_stats env fs = ({| status := 200; body := Summary s |}, fs, 1) ∧
       totalEntries s = N.of_nat (size (wasteEntries fs)).
Proof.
  intros Hfs Hacc. rewrite serve_GET_stats, Hacc.
  assert (forallb (converts ts) (scanned fs) = true) as Hall.
  { apply forallb_forall. intros d Hd%list_elem_of_In.
    unfold scanned in Hd. apply list_elem_of_fmap in Hd as ([id d'] & -> & Hd).
    apply elem_of_map_to_list in Hd. eapply scalar_fields_converts, Hfs, Hd. }
  destruct (forEach_converts _ zero_stats Hall) as [s Hs].
  exists s. unfold stats_response, computeStats. rewrite Hs. split; [done |].
  apply totalEntries_forEach in Hs. rewrite Hs. simpl.
  unfold scanned. by rewrite length_fmap, length_map_to_list.
Qed.

(** X7: once a waste entry one of whose keys does not convert is stored,
    every later GET /api/stats that reaches the store answers 500 with
    "Cannot convert object to primitive value", whatever requests are
    served in between. *)
Theorem one_entry_disables_stats script fs ress fs' id d env :
  wasteEntries fs !! id = Some d → converts ts d = false →
  run ts script fs = (ress, fs') → accepts env 0 = true →
  serve ts GET_stats env fs' =
    ({| status := 500; body := Failure "Cannot convert object to primitive value" |}, fs', 1).
Proof.
  intros Hd Hconv Hrun Hacc. rewrite serve_GET_stats, Hacc.
  assert (wasteEntries fs' !! id = Some d) as Hd'.
  { eapply lookup_weaken; [done |]. by eapply run_wasteEntries_subseteq. }
  assert (forallb (converts ts) (scanned fs') = false) as Hall.
  { apply not_true_is_false. intros Hall.
    rewrite forallb_forall in Hall.
    assert (converts ts d = true) as Hd''; [| congruence].
    apply Hall, list_elem_of_In. unfold scanned.
    apply list_elem_of_fmap. exists (id, d). split; [done |].
    by apply elem_of_map_to_list. }
  unfold stats_response, computeStats. by rewrite (forEach_fails _ _ Hall).
Qed.
End Summary.

(** ** Further properties of the handlers *)

Section Handlers.
(** The rendering of numbers, [Number::toString]. *)
Variable ts : float → string.

Lemma serve_POST_events b env fs :
  serve ts (POST_events b) env fs =
    match destructure b "title" with
    | Throw err => (server_error (message err), fs, 0)
    | Normal _ =>
        if truthy (uid_of b) then
          if accepts env 0 then
            match events fs !! autoId env with
            | Some _ => (server_error "6 ALREADY_EXISTS: Document already exists", fs, 1)
            | None =>
                ({| status := 200; body := Created "Event created" (autoId env) |},
                 put eventsCol (autoId env)
                   (event (getField b "title") (getField b "description")
                      (getField b "location") (getField b "date")
                      (getField b "user") (now env)) fs, 1)
            end
          else (server_error (fault_message env 0), fs, 1)
        else (Unauthorized, fs, 0)
    end.
Proof.
  unfold serve, route. rewrite post_api_events_cases.
  destruct (destructure b "title"); [| done].
  destruct (truthy (uid_of b)); [| done]. simpl.
  destruct (accepts env 0); [| done].
  by destruct (events fs !! autoId env).
Qed.

Lemma serve_POST_waste b env fs :
  serve ts (POST_waste b) env fs =
    match destructure b "type" with
    | Throw err => (server_error (message err), fs, 0)
    | Normal _ =>
        if truthy (uid_of b) then
          if accepts env 0 then
            match wasteEntries fs !! autoId env with
            | Some _ => (server_error "6 ALREADY_EXISTS: Document already exists", fs, 1)
            | None =>
                ({| status := 200; body := Created "Waste entry added" (autoId env) |},
                 put wasteEntriesCol (autoId env)
                   (wasteEntry (getField b "type") (getField b "volume")
                      (getField b "location") (getField b "user") (now env)) fs, 1)
            end
          else (server_error (fault_message env 0), fs, 1)
        else (Unauthorized, fs, 0)
    end.
Proof.
  unfold serve, route. rewrite post_api_waste_cases.
  destruct (destructure b "type"); [| done].
  destruct (truthy (uid_of b)); [| done]. simpl.
  destruct (accepts env 0); [| done].
  by destruct (wasteEntries fs !! autoId env).
Qed.

Lemma serve_GET_events env fs :
  serve ts GET_events env fs =
    (if accepts env 0 then {| status := 200; body := Listing (listing eventsCol fs) |}
     else server_error (fault_message env 0), fs, 1).
Proof.
  unfold serve, route, get_api_events. rewrite get_list_cases. simpl.
  by destruct (accepts env 0).
Qed.

(** X8: each route writes to its own collection at most: POST
    /api/waste leaves the events as they are, POST /api/events leaves the
    waste entries as they are and so does not change what GET /api/stats
    answers, the three GET routes over the store leave the whole store as
    it is, and GET / answers 200 [{status: "ok"}] without a store call;
    no handler makes more than one store call. *)
Theorem each_route_writes_its_own_collection rq env fs :
  let '(res, fs', n) := serve ts rq env fs in
  (n ≤ 1)%nat ∧
  match rq with
  | POST_waste _ => events fs' = events fs
  | POST_events _ =>
      wasteEntries fs' = wasteEntries fs ∧
      stats_response ts (scanned fs') = stats_response ts (scanned fs)
  | GET_waste | GET_events | GET_stats => fs' = fs
  | GET_root => fs' = fs ∧ n = 0 ∧ res = {| status := 200; body := Health |}
  end.
Proof.
  destruct rq as [b | | b | | |].
  - rewrite serve_POST_waste.
    destruct (destructure b "type"); [| by split; [lia |]].
    destruct (truthy (uid_of b)); [| by split; [lia |]].
    destruct (accepts env 0); [| by split; [lia |]].
    by destruct (wasteEntries fs !! autoId env).
  - rewrite serve_GET_waste. done.
  - rewrite serve_POST_events.
    destruct (destructure b "title"); [| by split; [lia |]].
    destruct (truthy (uid_of b)); [| by split; [lia |]].
    destruct (accepts env 0); [| by split; [lia |]].
    by destruct (events fs !! autoId env).
  - rewrite serve_GET_events. done.
  - rewrite serve_GET_stats. done.
  - simpl. split_and!; [lia | done..].
Qed.


(** X10: the status of POST /api/waste is decided as follows, and
    likewise for POST /api/events: 401 exactly when there is a body whose
    [user?.uid] is falsy (absent, [null], [false], [0], the empty
    string); 200 exactly when there is a body, the uid is truthy, the
    store call is not rejected and the identifier drawn is new; 500 in
    every other case, among them a nullish body.  Only a 200 changes the
    store. *)
Theorem post_status_characterised rq b env fs :
  rq = POST_waste b ∨ rq = POST_events b →
  let '(res, fs', n) := serve ts rq env fs in
  (status res = 401%N ↔ nullish b = false ∧ truthy (uid_of b) = false) ∧
  (status res = 200%N ↔
     nullish b = false ∧ truthy (uid_of b) = true ∧ accepts env 0 = true ∧
     docs (match rq with POST_events _ => eventsCol | _ => wasteEntriesCol end) fs
       !! autoId env = None) ∧
  (status res = 200%N ∨ status res = 401%N ∨ status res = 500%N) ∧
  (status res ≠ 200%N → fs' = fs) ∧
  (nullish b = true → status res = 500%N ∧ n = 0).
Proof.
  assert (∀ first, nullish b = true → ∃ err, destructure b first = Throw err) as Hnull.
  { intros first Hb. destruct b; try discriminate; by eexists. }
  intros [-> | ->].
  - rewrite serve_POST_waste. destruct (nullish b) eqn:Hb.
    { destruct (Hnull "type" eq_refl) as [err ->]. simpl.
      split_and!; try done; try (split; [done | intros; destruct_and?; done]); auto. }
    rewrite destructure_ok by done.
    destruct (truthy (uid_of b)) eqn:Hu; simpl;
      [| split_and!; try done; try (split; [done | intros; destruct_and?; done]); auto].
    destruct (accepts env 0) eqn:Hacc; simpl;
      [| split_and!; try done; try (split; [done | intros; destruct_and?; done]); auto].
    destruct (wasteEntries fs !! autoId env) eqn:Hid; simpl;
      split_and!; try done; try (split; [done | intros; destruct_and?; done]); auto.
  - rewrite serve_POST_events. destruct (nullish b) eqn:Hb.
    { destruct (Hnull "title" eq_refl) as [err ->]. simpl.
      split_and!; try done; try (split; [done | intros; destruct_and?; done]); auto. }
    rewrite destructure_ok by done.
    destruct (truthy (uid_of b)) eqn:Hu; simpl;
      [| split_and!; try done; try (split; [done | intros; destruct_and?; done]); auto].
    destruct (accepts env 0) eqn:Hacc; simpl;
      [| split_and!; try done; try (split; [done | intros; destruct_and?; done]); auto].
    destruct (events fs !! autoId env) eqn:Hid; simpl;
      split_and!; try done; try (split; [done | intros; destruct_and?; done]); auto.
Qed.
End Handlers.

(** ** Further properties of runs *)

Section Histories.
(** The rendering of numbers, [Number::toString]. *)
Variable ts : float → string.

Lemma serve_subseteq rq env fs :
  wasteEntries fs ⊆ wasteEntries (serve ts rq env fs).1.2 ∧
  events fs ⊆ events (serve ts rq env fs).1.2.
Proof.
  destruct rq as [b | | b | | |].
  - rewrite serve_POST_waste.
    destruct (destructure b "type"); [| done].
    destruct (truthy (uid_of b)); [| done].
    destruct (accepts env 0); [| done].
    destruct (wasteEntries fs !! autoId env) eqn:Hid; [done |].
    simpl. split; [by apply insert_subseteq | done].
  - by rewrite serve_GET_waste.
  - rewrite serve_POST_events.
    destruct (destructure b "title"); [| done].
    destruct (truthy (uid_of b)); [| done].
    destruct (accepts env 0); [| done].
    destruct (events fs !! autoId env) eqn:Hid; [done |].
    simpl. split; [done | by apply insert_subseteq].
  - by rewrite serve_GET_events.
  - by rewrite serve_GET_stats.
  - done.
Qed.

(** X12: the store is append-only under the server: after any sequence
    of requests, every document stored before, waste entry or event, is
    still stored under the same identifier with the same content. *)
Theorem store_is_append_only script fs :
  let fs' := (run ts script fs).2 in
  (∀ id d, wasteEntries fs !! id = Some d → wasteEntries fs' !! id = Some d) ∧
  (∀ id d, events fs !! id = Some d → events fs' !! id = Some d).
Proof.
  simpl. revert fs. induction script as [| [rq env] rest IH]; intros fs; [done |].
  rewrite run_cons.
  pose proof (serve_subseteq rq env fs) as [Hw He].
  destruct (serve ts rq env fs) as [[res fs1] n]. simpl in Hw, He.
  specialize (IH fs1). destruct (run ts rest fs1) as [ress fs2]. simpl in *.
  destruct IH as [IHw IHe].
  split; intros id d Hd.
  - eapply IHw, lookup_weaken; done.
  - eapply IHe, lookup_weaken; done.
Qed.




Lemma forEach_snoc docs e acc :
  forEach ts (docs ++ [e]) acc = forEach ts docs acc ≫= λ s, tally_entry ts s e.
Proof.
  revert acc. induction docs as [| e' docs IH]; intros acc; simpl.
  - by destruct (tally_entry ts acc e).
  - destruct (tally_entry ts acc e'); simpl; [apply IH | done].
Qed.

(** X13: GET /api/stats and GET /api/waste agree on the size of the
    collection: on the same store, the totalEntries of a summary the
    first returns is the number of entries the second lists. *)
Theorem stats_total_matches_listing env1 env2 fs s l :
  (serve ts GET_stats env1 fs).1.1 = {| status := 200; body := Summary s |} →
  (serve ts GET_waste env2 fs).1.1 = {| status := 200; body := Listing l |} →
  totalEntries s = N.of_nat (length l).
Proof.
  rewrite serve_GET_stats, serve_GET_waste. simpl.
  destruct (accepts env1 0); [| discriminate].
  destruct (accepts env2 0); [| discriminate].
  unfold stats_response.
  destruct (computeStats ts (scanned fs)) as [s0 |] eqn:Hs; [| discriminate].
  intros [= <-] [= <-]. apply totalEntries_forEach in Hs. rewrite Hs. simpl.
  unfold scanned, listing. simpl. by rewrite !length_fmap.
Qed.

(** X14: the statistics follow a creation incrementally: after a POST
    /api/waste answered 200, the aggregation over the store is the
    aggregation over the store before with the new document tallied
    last, wherever the store lists it: totalEntries is one more, the two
    objects are incremented under the keys of the new document, and
    every other property is as before. *)
Theorem stats_after_creation env fs b msg id fs' n :
  serve ts (POST_waste b) env fs = ({| status := 200; body := Created msg id |}, fs', n) →
  let d := wasteEntry (getField b "type") (getField b "volume") (getField b "location")
             (getField b "user") (now env) in
  computeStats ts (scanned fs') =
    (s ← computeStats ts (scanned fs);
     t ← type_key ts d;
     u ← user_key ts d;
     Normal {| totalEntries := totalEntries s + 1;
               totalsByType := bump (totalsByType s) t;
               totalsByUser := bump (totalsByUser s) u |}).
Proof.
  intros Hserve d.
  apply serve_cases in Hserve
    as [[_ ?] | [(b' & [= <-] & _ & Hid & [= -> ->] & -> & ->) | (b' & d' & ? & _)]];
    [done | | done].
  assert (scanned (put wasteEntriesCol (autoId env) d fs) ≡ₚ scanned fs ++ [d]) as Hperm.
  { unfold scanned. simpl. rewrite map_to_list_insert by done. simpl.
    by rewrite Permutation_cons_append. }
  unfold computeStats. rewrite (forEach_Permutation ts _ _ Hperm), forEach_snoc.
  done.
Qed.
End Histories.

(** ** The further properties at sample inputs *)

Lemma inherited_keys_hold_text_witness :
  let docs := [stored "constructor" "u1"; stored "constructor" "__proto__"] in
  ∃ s, computeStats no_numbers docs = Normal s ∧
       totalsByType s !! "constructor" =
         Some (Text "function Object() { [native code] }11") ∧
       totalsByUser s !! "__proto__" = None.
Proof.
  intros docs.
  pose (s := {| totalEntries := 2;
                totalsByType := {[ "constructor" := Text "function Object() { [native code] }11" ]};
                totalsByUser := {[ "u1" := Count 1 ]} |}).
  assert (computeStats no_numbers docs = Normal s) as Hs by (vm_compute; reflexivity).
  exists s. split; [exact Hs |].
  destruct (inherited_keys_hold_text no_numbers docs s Hs) as (Hfun & _ & Hproto).
  destruct (Hfun "constructor" "Object" eq_refl) as [Htype _].
  split; [exact Htype | exact Hproto].
Defined.

Lemma ordinary_keys_hold_counts_witness :
  let docs := [stored "Plastic" "u1"; stored "Plastic" "u2"; stored "" "u1"] in
  ∃ s, inherited "Plastic" = false ∧
       computeStats no_numbers docs = Normal s ∧
       totalsByType s !! "Plastic" = Some (Count 2) ∧
       totalsByUser s !! "Plastic" = None.
Proof.
  intros docs.
  pose (s := {| totalEntries := 3;
                totalsByType := {[ "Plastic" := Count 2; "Unknown" := Count 1 ]};
                totalsByUser := {[ "u1" := Count 2; "u2" := Count 1 ]} |}).
  assert (computeStats no_numbers docs = Normal s) as Hs by (vm_compute; reflexivity).
  exists s. split; [reflexivity |]. split; [exact Hs |].
  exact (ordinary_keys_hold_counts no_numbers docs s "Plastic" eq_refl Hs).
Defined.

Lemma scalar_fields_give_200_witness :
  let fs := {| wasteEntries := {[ "w1" := stored "Plastic" "u1" ]}; events := ∅ |} in
  (∀ id d, wasteEntries fs !! id = Some d → scalar_fields d = true) ∧
  accepts (calm "w2") 0 = true ∧
  ∃ s, serve no_numbers GET_stats (calm "w2") fs =
         ({| status := 200; body := Summary s |}, fs, 1) ∧
       totalEntries s = N.of_nat (size (wasteEntries fs)).
Proof.
  intros fs.
  assert (∀ id d, wasteEntries fs !! id = Some d → scalar_fields d = true) as Hfs.
  { intros id d Hd. unfold fs in Hd. simpl in Hd.
    apply lookup_singleton_Some in Hd as [_ <-]. reflexivity. }
  split; [exact Hfs |]. split; [reflexivity |].
  exact (scalar_fields_give_200 no_numbers (calm "w2") fs Hfs eq_refl).
Defined.

Lemma one_entry_disables_stats_witness :
  let bad := JObj {[ "type" := JObj {[ "toString" := JStr "x" ]};
                     "volume" := JStr "1 bag"; "location" := JStr "Zapote";
                     "user" := JObj {[ "uid" := JStr "u1" ]} ]} in
  let script := [(POST_waste (waste_body "Plastic" "u2"), calm "w2"); (GET_waste, calm "w3")] in
  ∃ fs d ress fs',
    serve no_numbers (POST_waste bad) (calm "w1") empty_store =
      ({| status := 200; body := Created "Waste entry added" "w1" |}, fs, 1) ∧
    wasteEntries fs !! "w1" = Some d ∧
    converts no_numbers d = false ∧
    run no_numbers script fs = (ress, fs') ∧
    serve no_numbers GET_stats (calm "w4") fs' =
      ({| status := 500; body := Failure "Cannot convert object to primitive value" |}, fs', 1).
Proof.
  intros bad script.
  pose (fs := (serve no_numbers (POST_waste bad) (calm "w1") empty_store).1.2).
  pose (d := wasteEntry (getField bad "type") (getField bad "volume") (getField bad "location")
               (getField bad "user") (now (calm "w1"))).
  pose (out := run no_numbers script fs).
  exists fs, d, out.1, out.2.
  assert (wasteEntries fs !! "w1" = Some d) as Hd by (vm_compute; reflexivity).
  assert (run no_numbers script fs = (out.1, out.2)) as Hrun by (vm_compute; reflexivity).
  split; [vm_compute; reflexivity |]. split; [exact Hd |]. split; [reflexivity |].
  split; [exact Hrun |].
  exact (one_entry_disables_stats no_numbers script fs out.1 out.2 "w1" d (calm "w4")
           Hd eq_refl Hrun eq_refl).
Defined.


Lemma post_status_characterised_witness :
  let b := JObj {[ "type" := JStr "Plastic"; "user" := JObj {[ "uid" := JStr "" ]} ]} in
  (POST_waste b = POST_waste b ∨ POST_waste b = POST_events b) ∧
  status (serve no_numbers (POST_waste b) (calm "w1") empty_store).1.1 = 401%N.
Proof.
  intros b. split; [left; reflexivity |].
  pose proof (post_status_characterised no_numbers (POST_waste b) b (calm "w1") empty_store
                (or_introl eq_refl)) as H.
  destruct (serve no_numbers (POST_waste b) (calm "w1") empty_store) as [[res fs'] n].
  destruct H as [[_ H401] _]. apply H401. split; reflexivity.
Defined.


Lemma stats_total_matches_listing_witness :
  let fs := {| wasteEntries := {[ "w1" := stored "Plastic" "u1" ]}; events := ∅ |} in
  ∃ s l,
    (serve no_numbers GET_stats (calm "w2") fs).1.1 = {| status := 200; body := Summary s |} ∧
    (serve no_numbers GET_waste (calm "w3") fs).1.1 = {| status := 200; body := Listing l |} ∧
    totalEntries s = 1%N ∧ length l = 1.
Proof.
  intros fs.
  pose (s := {| totalEntries := 1;
                totalsByType := {[ "Plastic" := Count 1 ]};
                totalsByUser := {[ "u1" := Count 1 ]} |}).
  pose (l := with_id <$> [("w1", stored "Plastic" "u1")]).
  assert ((serve no_numbers GET_stats (calm "w2") fs).1.1
          = {| status := 200; body := Summary s |}) as Hs by (vm_compute; reflexivity).
  assert ((serve no_numbers GET_waste (calm "w3") fs).1.1
          = {| status := 200; body := Listing l |}) as Hl by (vm_compute; reflexivity).
  exists s, l. split; [exact Hs |]. split; [exact Hl |].
  split; [| reflexivity].
  exact (stats_total_matches_listing no_numbers (calm "w2") (calm "w3") fs s l Hs Hl).
Defined.

Lemma stats_after_creation_witness :
  let fs := {| wasteEntries := {[ "w1" := stored "Plastic" "u1" ]}; events := ∅ |} in
  ∃ fs',
    serve no_numbers (POST_waste (waste_body "Plastic" "u2")) (calm "w2") fs =
      ({| status := 200; body := Created "Waste entry added" "w2" |}, fs', 1) ∧
    computeStats no_numbers (scanned fs') =
      Normal {| totalEntries := 2;
                totalsByType := {[ "Plastic" := Count 2 ]};
                totalsByUser := {[ "u1" := Count 1; "u2" := Count 1 ]} |}.
Proof.
  intros fs.
  pose (fs' := (serve no_numbers (POST_waste (waste_body "Plastic" "u2")) (calm "w2") fs).1.2).
  exists fs'.
  assert (serve no_numbers (POST_waste (waste_body "Plastic" "u2")) (calm "w2") fs =
            ({| status := 200; body := Created "Waste entry added" "w2" |}, fs', 1)) as Hserve
    by (vm_compute; reflexivity).
  split; [exact Hserve |].
  rewrite (stats_after_creation no_numbers (calm "w2") fs (waste_body "Plastic" "u2")
             _ _ _ _ Hserve).
  vm_compute. reflexivity.
Defined.
